(** * Connectivity ETL: a shallow embedding of [pipeline_ETL.py]

    The pipeline of [ConnectivityETL] cleans two tables (mobile coverage and
    fixed accesses), groups each of them by
    (ano, trimestre, departamento, municipio, proveedor) and joins the two
    groupings.  This file embeds the steps of that pipeline as functions and
    proves the properties stated about them.

    Conventions of the embedding.
    - A Python [str] is a [string], the bytes of its UTF-8 form.  [upper],
      [lower], [strip] and [float] are embedded as they act on ASCII
      characters and leave the other bytes alone.  Python changes the case of
      the letters outside ASCII too; for the searches and comparisons with
      ASCII words made on the cells this makes no difference on a text whose
      characters outside ASCII neither are blanks or digits nor turn into
      ASCII letters when their case changes.  On the labels of the columns,
      where the case of a letter such as the one of ['AÑO'] counts,
      [str.strip] and [str.lower] are parameters.
    - A missing cell ([NaN] / [pd.NA]) is [None].
    - A Python exception is the [Raise] case of [result].
    - pandas primitives ([DataFrame.drop], [Series.map], [groupby], [merge],
      nullable boolean arithmetic) are embedded with the defaults the source
      leaves in place ([errors='raise'], [skipna=True], [dropna=True],
      [sort=True]).
    - Binary64 arithmetic is not embedded: a float is the decimal it was read
      from, and the sums and means of the pipeline are parameters. *)

From Stdlib Require Import ZArith QArith Ascii String List Bool Lia.
From stdpp Require Import base decidable option list sorting gmap strings.

Local Open Scope string_scope.
Local Open Scope Z_scope.
Local Open Scope list_scope.

(** ** Exceptions *)

Inductive exn : Set :=
  | KeyError     (* a column label that the frame does not have *)
  | ValueError.  (* text that [float] cannot convert *)

Inductive result (A : Type) : Type :=
  | Ok (a : A)
  | Raise (e : exn).
Arguments Ok {A} a.
Arguments Raise {A} e.

Definition bind {A B} (r : result A) (k : A -> result B) : result B :=
  match r with
  | Ok a => k a
  | Raise e => Raise e
  end.

Notation "'let*' x ':=' r 'in' k" := (bind r (fun x => k))
  (at level 10, x name, r at level 100, k at level 200).

(** [[f(x) for x in xs]], stopping at the first exception. *)
Fixpoint map_result {A B} (f : A -> result B) (xs : list A) : result (list B) :=
  match xs with
  | [] => Ok []
  | x :: xs' => let* y := f x in let* ys := map_result f xs' in Ok (y :: ys)
  end.

(** ** Python strings *)

Module Py.

Definition code (a : ascii) : N := N_of_ascii a.

(** [str.isspace] on one ASCII character: TAB, LF, VT, FF, CR, the four
    separators FS GS RS US, and the space. *)
Definition is_space (a : ascii) : bool :=
  let n := code a in
  ((9 <=? n) && (n <=? 13) || (28 <=? n) && (n <=? 32))%N.

Definition upper_char (a : ascii) : ascii :=
  let n := code a in
  if ((97 <=? n) && (n <=? 122))%N then ascii_of_N (n - 32) else a.

Definition lower_char (a : ascii) : ascii :=
  let n := code a in
  if ((65 <=? n) && (n <=? 90))%N then ascii_of_N (n + 32) else a.

Fixpoint map_chars (f : ascii -> ascii) (s : string) : string :=
  match s with
  | EmptyString => EmptyString
  | String a s' => String (f a) (map_chars f s')
  end.

(** [s.upper()] and [s.lower()] *)
Definition upper : string -> string := map_chars upper_char.
Definition lower : string -> string := map_chars lower_char.

(** The text without the leading characters that [p] holds of, without the
    trailing ones, and without both. *)
Fixpoint lstrip_by (p : ascii -> bool) (s : string) : string :=
  match s with
  | EmptyString => EmptyString
  | String a s' => if p a then lstrip_by p s' else s
  end.

Fixpoint rstrip_by (p : ascii -> bool) (s : string) : string :=
  match s with
  | EmptyString => EmptyString
  | String a s' =>
      match rstrip_by p s' with
      | EmptyString => if p a then EmptyString else String a EmptyString
      | t => String a t
      end
  end.

Definition strip_by (p : ascii -> bool) (s : string) : string :=
  rstrip_by p (lstrip_by p s).

(** [s.strip()] *)
Definition strip : string -> string := strip_by is_space.

(** [sub in s] *)
Fixpoint contains (sub s : string) : bool :=
  String.prefix sub s ||
  match s with
  | EmptyString => false
  | String _ s' => contains sub s'
  end.

(** [s.replace(old, new)] for one-character [old] and [new]. *)
Definition replace (old new : ascii) : string -> string :=
  map_chars (fun a => if Ascii.eqb a old then new else a).

(** [sep.join(xs)] *)
Fixpoint join (sep : string) (xs : list string) : string :=
  match xs with
  | [] => ""
  | [x] => x
  | x :: xs' => x +:+ sep +:+ join sep xs'
  end.

(** [x in xs] for a list of strings *)
Definition mem (x : string) (xs : list string) : bool :=
  existsb (String.eqb x) xs.

End Py.

(** ** The technology classifier *)

(** [_clasificar_tecnologia]: the argument is a cell of the column
    [tecnologia], which has dtype [string]: text or [pd.NA]. *)
Definition _clasificar_tecnologia (tec : option string) : string :=
  match tec with
  | None => "OTRA"
  | Some tec =>
      let tec := Py.upper tec in
      if Py.mem tec ["ADSL"; "XDSL"; "DSL"] then "COBRE"
      else if Py.contains "FIBRA" tec then "FIBRA"
      else if Py.contains "SATELITAL" tec then "SATELITAL"
      else if Py.contains "WIFI" tec || Py.contains "INALAMBRICO" tec then "INALÁMBRICA"
      else if Py.contains "CABLE" tec then "CABLE"
      else "OTRA"
  end.

(** The list of exact matches of the first check, and the six labels the
    function returns. *)
Definition copper : list string := ["ADSL"; "XDSL"; "DSL"].

Definition labels : list string :=
  ["COBRE"; "FIBRA"; "SATELITAL"; "INALÁMBRICA"; "CABLE"; "OTRA"].

(** ** Data frames, as far as their column labels go *)

Module Frame.

(** The columns of a [DataFrame] in order: a label and the cells under it. *)
Definition DataFrame (A : Type) : Type := list (string * list A).

(** [df.columns] *)
Definition columns {A} (df : DataFrame A) : list string := map fst df.

(** [df.drop(columns=labels)].  The source does not pass [errors='ignore'],
    so the default [errors='raise'] applies: every label has to be a column
    of the frame, and then every column carrying one of the labels goes. *)
Definition drop {A} (labels : list string) (df : DataFrame A) : result (DataFrame A) :=
  if forallb (fun c => Py.mem c (columns df)) labels
  then Ok (List.filter (fun col => negb (Py.mem (fst col) labels)) df)
  else Raise KeyError.

(** [.astype(str)] on a cell of an [object] column read from a file: text
    stays, a missing cell becomes the text ["nan"]. *)
Definition astype_str (c : option string) : string :=
  match c with
  | None => "nan"
  | Some s => s
  end.

(** [df.drop_duplicates()], and the distinct values of a column in the order
    they first appear: the first of equal entries stays. *)
Fixpoint drop_duplicates_from {A} `{EqDecision A} (seen l : list A) : list A :=
  match l with
  | [] => []
  | x :: l' =>
      if decide (x ∈ seen) then drop_duplicates_from seen l'
      else x :: drop_duplicates_from (x :: seen) l'
  end.

Definition drop_duplicates {A} `{EqDecision A} (l : list A) : list A :=
  drop_duplicates_from [] l.

End Frame.

(** ** The coverage normalizer, [transform_cobertura_movil] *)

(** The function is embedded in two parts: the drop of the identifying
    columns, on the columns of the frame (lines 27-28), and the steps that
    work on the cells, row by row (lines 47-67).  Between the two the source
    cleans the labels of the columns and gives the text columns the dtype
    [string], which leaves a text and a missing cell as they are. *)

Module Cobertura.

Definition cols_to_drop : list string :=
  ["COD DEPARTAMENTO"; "COD MUNICIPIO"; "CABECERA MUNICIPAL"; "COD CENTRO POBLADO"].

(** Line 28: [df.drop(columns=cols_to_drop, inplace=True)]. *)
Definition drop_step {A} (df : Frame.DataFrame A) : result (Frame.DataFrame A) :=
  Frame.drop cols_to_drop df.

(** A row of the table once its columns carry their cleaned labels.  The
    cells of the six technology columns are still what the file holds:
    text, or nothing. *)
Module Raw.
Record row : Type := {
  ano : option Z;
  trimestre : option Z;
  departamento : option string;
  municipio : option string;
  proveedor : option string;
  centro_poblado : option string;
  cobertura_2g : option string;
  cobertura_3g : option string;
  cobertura_4g : option string;
  cobertura_5g : option string;
  cobertura_lte : option string;
  cobertura_hspa : option string    (* 'cobertura_hspa+,_hspa+dc' *)
}.
End Raw.

(** A row of the normalized table. *)
Record row : Type := {
  ano : option Z;
  trimestre : option Z;
  departamento : option string;
  municipio : option string;
  proveedor : option string;
  centro_poblado : option string;
  cobertura_2g : option bool;
  cobertura_3g : option bool;
  cobertura_4g : option bool;
  cobertura_5g : option bool;
  cobertura_lte : option bool;
  cobertura_hspa : option bool;
  total_tecnologias : Z;
  tiene_4g_o_mas : option bool
}.

#[global] Instance row_eq_dec : EqDecision row.
Proof. solve_decision. Defined.

(** [tech_cols], as the markers of one row in the order of the list. *)
Definition tech_cols (r : row) : list (option bool) :=
  [cobertura_2g r; cobertura_3g r; cobertura_4g r; cobertura_5g r;
   cobertura_lte r; cobertura_hspa r].

(** The dictionary [{'S': True, 'N': False}]. *)
Definition marker_dict : gmap string bool := <["S" := true]> (<["N" := false]> ∅).

(** Lines 52-56 on one cell:
    [astype(str).str.strip().str.upper().map({...}).astype('boolean')].
    [Series.map] with a dictionary gives a missing value for a key the
    dictionary does not have. *)
Definition coerce_marker (c : option string) : option bool :=
  marker_dict !! Py.upper (Py.strip (Frame.astype_str c)).

(** Sum of nullable booleans along a row, [sum(axis=1)] with the default
    [skipna=True]: [True] counts 1, [False] counts 0, a missing value is
    skipped. *)
Definition sum_skipna (ms : list (option bool)) : Z :=
  fold_right (fun m acc => match m with Some b => Z.b2z b + acc | None => acc end) 0 ms.

(** [|] on the nullable [boolean] dtype (Kleene logic). *)
Definition kleene_or (a b : option bool) : option bool :=
  match a, b with
  | Some true, _ => Some true
  | _, Some true => Some true
  | Some false, Some false => Some false
  | _, _ => None
  end.

(** Lines 47-64 on one row. *)
Definition transform_row (r : Raw.row) : row :=
  let c2g := coerce_marker (Raw.cobertura_2g r) in
  let c3g := coerce_marker (Raw.cobertura_3g r) in
  let c4g := coerce_marker (Raw.cobertura_4g r) in
  let c5g := coerce_marker (Raw.cobertura_5g r) in
  let clte := coerce_marker (Raw.cobertura_lte r) in
  let chspa := coerce_marker (Raw.cobertura_hspa r) in
  {| ano := Raw.ano r;
     trimestre := Raw.trimestre r;
     departamento := Raw.departamento r;
     municipio := Raw.municipio r;
     proveedor := Raw.proveedor r;
     centro_poblado := Raw.centro_poblado r;
     cobertura_2g := c2g;
     cobertura_3g := c3g;
     cobertura_4g := c4g;
     cobertura_5g := c5g;
     cobertura_lte := clte;
     cobertura_hspa := chspa;
     total_tecnologias := sum_skipna [c2g; c3g; c4g; c5g; clte; chspa];
     tiene_4g_o_mas := kleene_or (kleene_or c4g clte) c5g |}.

(** The normalizer on the rows of a table that has the six technology
    columns. *)
Definition transform_cobertura_movil (rows : list Raw.row) : list row :=
  Frame.drop_duplicates (map transform_row rows).

End Cobertura.

(** ** The access normalizer, [transform_accesos] *)

(** As for the coverage: the drop of the identifying columns on the columns
    of the frame (lines 77-78), then the coercion of the numeric columns and
    the two derived columns (lines 93-102). *)

Module Accesos.

Definition cols_to_drop : list string :=
  ["COD_DEPARTAMENTO"; "COD_MUNICIPIO"; "SEGMENTO"].

(** Line 78: [df.drop(columns=cols_to_drop, inplace=True)]. *)
Definition drop_step {A} (df : Frame.DataFrame A) : result (Frame.DataFrame A) :=
  Frame.drop cols_to_drop df.

(** *** [float] of a text

    A float is kept as what the text denotes: not-a-number, an infinity, or
    the exact decimal [q]; [FNum q] stands for the binary64 number nearest
    to [q].  [FNan] is the missing value of a float column. *)
Inductive pyfloat : Type :=
  | FNan
  | FInf (negative : bool)
  | FNum (q : Q).

#[global] Instance Q_eq_dec : EqDecision Q.
Proof. solve_decision. Defined.

#[global] Instance pyfloat_eq_dec : EqDecision pyfloat.
Proof. solve_decision. Defined.

Definition is_digit (a : ascii) : bool :=
  ((48 <=? Py.code a) && (Py.code a <=? 57))%N.

(** Underscores may stand between two digits and nowhere else; they are
    taken out before the number is read.  A text without underscores comes
    back as it is. *)
Fixpoint without_underscores (prev : ascii) (s : string) : option string :=
  match s with
  | EmptyString => if Ascii.eqb prev "_" then None else Some EmptyString
  | String c s' =>
      if Ascii.eqb c "_" then
        if is_digit prev then without_underscores c s' else None
      else if Ascii.eqb prev "_" && negb (is_digit c) then None
      else option_map (String c) (without_underscores c s')
  end.

(** The leading digits of a text, as numbers, and what follows them. *)
Fixpoint span_digits (s : string) : list N * string :=
  match s with
  | EmptyString => ([], EmptyString)
  | String c s' =>
      if is_digit c then
        let (ds, rest) := span_digits s' in ((Py.code c - 48)%N :: ds, rest)
      else ([], s)
  end.

Definition number_of (ds : list N) : N :=
  fold_left (fun acc d => (10 * acc + d)%N) ds 0%N.

Definition take_sign (s : string) : bool * string :=
  match s with
  | String "-" rest => (true, rest)
  | String "+" rest => (false, rest)
  | _ => (false, s)
  end.

(** What follows the mantissa: nothing, or [e], an optional sign and at
    least one digit, up to the end of the text. *)
Definition parse_exponent (s : string) : option Z :=
  match s with
  | EmptyString => Some 0
  | String c rest =>
      if Ascii.eqb c "e" || Ascii.eqb c "E" then
        let (neg, r1) := take_sign rest in
        let (ds, r2) := span_digits r1 in
        match ds, r2 with
        | _ :: _, EmptyString =>
            Some (if neg then - Z.of_N (number_of ds) else Z.of_N (number_of ds))
        | _, _ => None
        end
      else None
  end.

(** [mantissa * 10 ^ exponent], in lowest terms. *)
Definition decimal (neg : bool) (mantissa : N) (exponent : Z) : Q :=
  let m := if neg then - Z.of_N mantissa else Z.of_N mantissa in
  Qred (if 0 <=? exponent then (m * 10 ^ exponent) # 1
        else m # Z.to_pos (10 ^ (- exponent))).

Definition parse_number (neg : bool) (s : string) : option pyfloat :=
  let (d1, r1) := span_digits s in
  let (d2, r2) :=
    match r1 with
    | String "." r => span_digits r
    | _ => ([], r1)
    end in
  match d1 ++ d2 with
  | [] => None
  | ds =>
      match parse_exponent r2 with
      | Some e => Some (FNum (decimal neg (number_of ds) (e - Z.of_nat (length d2))))
      | None => None
      end
  end.

(** The blanks that [float] passes over at both ends of its argument: TAB,
    LF, VT, FF, CR and the space. *)
Definition is_blank (a : ascii) : bool :=
  ((9 <=? Py.code a) && (Py.code a <=? 13) || (Py.code a =? 32))%N.

(** [float(s)] for a text [s]: the underscores are checked and taken out,
    the blanks at both ends are passed over, and what is left has to be, after
    an optional sign, [inf], [infinity] or [nan] in any case, or a decimal
    number. *)
Definition py_float (s : string) : result pyfloat :=
  match without_underscores "000" s with
  | None => Raise ValueError
  | Some t =>
      let (neg, body) := take_sign (Py.strip_by is_blank t) in
      let word := Py.lower body in
      if Py.mem word ["inf"; "infinity"] then Ok (FInf neg)
      else if String.eqb word "nan" then Ok FNan
      else match parse_number neg body with
           | Some x => Ok x
           | None => Raise ValueError
           end
  end.

(** *** Numeric columns

    A column as [read_csv] types it: [object] when some cell is not a
    number (text and missing cells), else [float64] or [int64].  An empty
    field of the file is read as a missing cell, so the stored value that is
    empty or null is [None] in a column of texts and [FNan] in a column of
    floats. *)
Inductive series : Type :=
  | ObjectCol (cells : list (option string))
  | Float64Col (cells : list pyfloat)
  | Int64Col (cells : list Z).

(** Line 97 on one cell: [.astype(str).str.replace(',', '.', regex=False)]. *)
Definition comma_to_period (c : option string) : string :=
  Py.replace "," "." (Frame.astype_str c).

(** Lines 96-98 on one column. *)
Definition coerce_numeric (col : series) : result (list pyfloat) :=
  match col with
  | ObjectCol cells => map_result py_float (map comma_to_period cells)
  | Float64Col cells => Ok cells
  | Int64Col cells => Ok (map (fun z => FNum (inject_Z z)) cells)
  end.

(** A row of the normalized table. *)
Record row : Type := {
  ano : option Z;
  trimestre : option Z;
  departamento : option string;
  municipio : option string;
  proveedor : option string;
  tecnologia : option string;
  velocidad_bajada : pyfloat;
  velocidad_subida : pyfloat;
  no_de_accesos : pyfloat;
  velocidad_total : pyfloat;
  tipo_tecnologia : string
}.

(** The table before the numeric columns are coerced: the other columns
    row by row, and the three numeric columns. *)
Module Raw.
Record row : Type := {
  ano : option Z;
  trimestre : option Z;
  departamento : option string;
  municipio : option string;
  proveedor : option string;
  tecnologia : option string
}.
Record table : Type := {
  rows : list row;
  velocidad_bajada : series;
  velocidad_subida : series;
  no_de_accesos : series
}.
End Raw.

Section Transform.
(** Binary64 addition is not embedded; it is a parameter. *)
Variable fadd : pyfloat -> pyfloat -> pyfloat.

Definition make_row (r : Raw.row) (bajada subida accesos : pyfloat) : row :=
  {| ano := Raw.ano r;
     trimestre := Raw.trimestre r;
     departamento := Raw.departamento r;
     municipio := Raw.municipio r;
     proveedor := Raw.proveedor r;
     tecnologia := Raw.tecnologia r;
     velocidad_bajada := bajada;
     velocidad_subida := subida;
     no_de_accesos := accesos;
     velocidad_total := fadd bajada subida;
     tipo_tecnologia := _clasificar_tecnologia (Raw.tecnologia r) |}.

Fixpoint make_rows (rs : list Raw.row) (vb vs na : list pyfloat) : list row :=
  match rs, vb, vs, na with
  | r :: rs', b :: vb', s :: vs', a :: na' => make_row r b s a :: make_rows rs' vb' vs' na'
  | _, _, _, _ => []
  end.

(** The normalizer on a table that has the three numeric columns and the
    column [tecnologia]. *)
Definition transform_accesos (t : Raw.table) : result (list row) :=
  let* vb := coerce_numeric (Raw.velocidad_bajada t) in
  let* vs := coerce_numeric (Raw.velocidad_subida t) in
  let* na := coerce_numeric (Raw.no_de_accesos t) in
  Ok (make_rows (Raw.rows t) vb vs na).
End Transform.

End Accesos.

(** ** Grouping and joining, [merge_datasets] *)

Module Merge.
Import Accesos (pyfloat).

(** The cells of the five columns
    [['ano', 'trimestre', 'departamento', 'municipio', 'proveedor']]. *)
Definition JoinKey : Type :=
  (option Z * option Z * option string * option string * option string)%type.

Definition cobertura_key (r : Cobertura.row) : JoinKey :=
  (Cobertura.ano r, Cobertura.trimestre r, Cobertura.departamento r,
   Cobertura.municipio r, Cobertura.proveedor r).

Definition accesos_key (r : Accesos.row) : JoinKey :=
  (Accesos.ano r, Accesos.trimestre r, Accesos.departamento r,
   Accesos.municipio r, Accesos.proveedor r).

Definition notnull {A} (x : option A) : bool :=
  match x with
  | Some _ => true
  | None => false
  end.

Definition key_notnull (k : JoinKey) : bool :=
  let '(a, t, d, m, p) := k in
  notnull a && notnull t && notnull d && notnull m && notnull p.

(** The order in which [groupby] (with its default [sort=True]) lists the
    groups: by the first key column, then the second, and so on. *)
Definition lex (c1 c2 : comparison) : comparison :=
  match c1 with
  | Eq => c2
  | _ => c1
  end.

Definition compare_cell {A} (cmp : A -> A -> comparison) (x y : option A) : comparison :=
  match x, y with
  | Some a, Some b => cmp a b
  | None, None => Eq
  | None, Some _ => Lt
  | Some _, None => Gt
  end.

Definition key_compare (k1 k2 : JoinKey) : comparison :=
  let '(a1, t1, d1, m1, p1) := k1 in
  let '(a2, t2, d2, m2, p2) := k2 in
  lex (compare_cell Z.compare a1 a2)
    (lex (compare_cell Z.compare t1 t2)
       (lex (compare_cell String.compare d1 d2)
          (lex (compare_cell String.compare m1 m2)
             (compare_cell String.compare p1 p2)))).

Definition key_le (k1 k2 : JoinKey) : Prop := key_compare k1 k2 <> Gt.

#[global] Instance key_le_dec : RelDecision key_le.
Proof. intros k1 k2. unfold key_le. apply _. Defined.

(** The rows of a table that have the key [k], in the order of the table. *)
Definition rows_of {A} (key : A -> JoinKey) (k : JoinKey) (rows : list A) : list A :=
  List.filter (fun r => bool_decide (key r = k)) rows.

(** [df.groupby(keys)] with the defaults [dropna=True] and [sort=True]: the
    rows with a missing key cell are left out, and the others are gathered
    by key, the keys in ascending order and the rows of a group in the
    order of the table. *)
Definition groupby {A} (key : A -> JoinKey) (rows : list A) : list (JoinKey * list A) :=
  let kept := List.filter (fun r => key_notnull (key r)) rows in
  let keys := merge_sort key_le (Frame.drop_duplicates (map key kept)) in
  map (fun k => (k, rows_of key k kept)) keys.

(** [lambda x: ', '.join(sorted(set(x.dropna())))] *)
Definition join_sorted_set (x : list (option string)) : string :=
  Py.join ", " (merge_sort String.le (Frame.drop_duplicates (omap id x))).

(** The reduction ['any'] of a group, with its default [skipna=True]: a
    missing value is passed over. *)
Definition any_skipna (ms : list (option bool)) : bool :=
  existsb (fun m => match m with Some b => b | None => false end) ms.

Module CoberturaGrouped.
Record row : Type := {
  centro_poblado : string;
  cobertura_2g : bool;
  cobertura_3g : bool;
  cobertura_hspa : bool;
  cobertura_4g : bool;
  cobertura_lte : bool;
  cobertura_5g : bool;
  total_tecnologias : pyfloat;
  tiene_4g_o_mas : bool
}.
#[global] Instance row_eq_dec : EqDecision row.
Proof. solve_decision. Defined.
End CoberturaGrouped.

Module AccesosGrouped.
Record row : Type := {
  tecnologia : string;
  velocidad_bajada : pyfloat;
  velocidad_subida : pyfloat;
  no_de_accesos : pyfloat;
  velocidad_total : pyfloat;
  tipo_tecnologia : string
}.
#[global] Instance row_eq_dec : EqDecision row.
Proof. solve_decision. Defined.
End AccesosGrouped.

(** [pd.merge(left, right, on=keys, how='inner')]: a row for every pair of
    a left row and a right row with the same key, in the order of the left
    table. *)
Definition merge_inner {B C} (left : list (JoinKey * B)) (right : list (JoinKey * C))
  : list (JoinKey * B * C) :=
  flat_map (fun l =>
    flat_map (fun r =>
      if decide (fst l = fst r) then [(fst l, snd l, snd r)] else []) right) left.

(** The key cells of a row of the joined table. *)
Definition merged_key {B C} (row : JoinKey * B * C) : JoinKey := fst (fst row).

Section Reductions.
(** Binary64 means and sums are not embedded; they are parameters. *)
Variable mean_count : list Z -> pyfloat.     (* ['mean'] of [total_tecnologias] *)
Variable mean : list pyfloat -> pyfloat.     (* ['mean'] of a float column *)
Variable sum : list pyfloat -> pyfloat.      (* ['sum'] of a float column *)

(** The dictionary of reductions at lines 134-144, on one group. *)
Definition agg_cobertura (g : list Cobertura.row) : CoberturaGrouped.row :=
  {| CoberturaGrouped.centro_poblado := join_sorted_set (map Cobertura.centro_poblado g);
     CoberturaGrouped.cobertura_2g := any_skipna (map Cobertura.cobertura_2g g);
     CoberturaGrouped.cobertura_3g := any_skipna (map Cobertura.cobertura_3g g);
     CoberturaGrouped.cobertura_hspa := any_skipna (map Cobertura.cobertura_hspa g);
     CoberturaGrouped.cobertura_4g := any_skipna (map Cobertura.cobertura_4g g);
     CoberturaGrouped.cobertura_lte := any_skipna (map Cobertura.cobertura_lte g);
     CoberturaGrouped.cobertura_5g := any_skipna (map Cobertura.cobertura_5g g);
     CoberturaGrouped.total_tecnologias := mean_count (map Cobertura.total_tecnologias g);
     CoberturaGrouped.tiene_4g_o_mas := any_skipna (map Cobertura.tiene_4g_o_mas g) |}.

(** The dictionary of reductions at lines 150-157, on one group. *)
Definition agg_accesos (g : list Accesos.row) : AccesosGrouped.row :=
  {| AccesosGrouped.tecnologia := join_sorted_set (map Accesos.tecnologia g);
     AccesosGrouped.velocidad_bajada := mean (map Accesos.velocidad_bajada g);
     AccesosGrouped.velocidad_subida := mean (map Accesos.velocidad_subida g);
     AccesosGrouped.no_de_accesos := sum (map Accesos.no_de_accesos g);
     AccesosGrouped.velocidad_total := mean (map Accesos.velocidad_total g);
     AccesosGrouped.tipo_tecnologia :=
       join_sorted_set (map (fun r => Some (Accesos.tipo_tecnologia r)) g) |}.

(** [cobertura_grouped] and [accesos_grouped] *)
Definition cobertura_grouped (df_cobertura : list Cobertura.row)
  : list (JoinKey * CoberturaGrouped.row) :=
  map (fun kg => (fst kg, agg_cobertura (snd kg))) (groupby cobertura_key df_cobertura).

Definition accesos_grouped (df_accesos : list Accesos.row)
  : list (JoinKey * AccesosGrouped.row) :=
  map (fun kg => (fst kg, agg_accesos (snd kg))) (groupby accesos_key df_accesos).

Definition merge_datasets (df_cobertura : list Cobertura.row) (df_accesos : list Accesos.row)
  : list (JoinKey * CoberturaGrouped.row * AccesosGrouped.row) :=
  merge_inner (cobertura_grouped df_cobertura) (accesos_grouped df_accesos).
End Reductions.

End Merge.

(** ** Reductions in exact arithmetic

    The float reductions that the pipeline leaves to pandas, computed on the
    decimals the floats stand for.  They are used to run the pipeline on the
    sample tables below, whose sums and means are binary64 numbers. *)

Module Exact.
Import Accesos (pyfloat, FNan, FInf, FNum).

(** [a + b] *)
Definition add (a b : pyfloat) : pyfloat :=
  match a, b with
  | FNan, _ | _, FNan => FNan
  | FInf x, FInf y => if Bool.eqb x y then FInf x else FNan
  | FInf x, FNum _ | FNum _, FInf x => FInf x
  | FNum p, FNum q => FNum (Qred (p + q))
  end.

Definition notna (a : pyfloat) : bool :=
  match a with
  | FNan => false
  | _ => true
  end.

(** ['sum'] of a group, missing values skipped. *)
Definition sum (xs : list pyfloat) : pyfloat :=
  fold_left add (List.filter notna xs) (FNum 0).

(** ['mean'] of a group, missing values skipped. *)
Definition mean (xs : list pyfloat) : pyfloat :=
  match List.filter notna xs with
  | [] => FNan
  | ys =>
      match sum ys with
      | FNum total => FNum (Qred (total / inject_Z (Z.of_nat (length ys))))
      | other => other
      end
  end.

(** ['mean'] of a group of counts. *)
Definition mean_count (zs : list Z) : pyfloat :=
  mean (map (fun z => FNum (inject_Z z)) zs).

End Exact.

(** ** Sample tables *)

Module Sample.

(** A coverage file without the column ['CABECERA MUNICIPAL'], and an
    access file without the column ['SEGMENTO']. *)
Definition cobertura_frame : Frame.DataFrame string :=
  [("AÑO", ["2023"]); ("TRIMESTRE", ["1"]);
   ("COD DEPARTAMENTO", ["5"]); ("DEPARTAMENTO", ["ANTIOQUIA"]);
   ("COD MUNICIPIO", ["5001"]); ("MUNICIPIO", ["MEDELLIN"]);
   ("COD CENTRO POBLADO", ["5001000"]); ("CENTRO POBLADO", ["MEDELLIN"]);
   ("PROVEEDOR", ["CLARO"]); ("COBERTURA 4G", ["S"])].

Definition accesos_frame : Frame.DataFrame string :=
  [("AÑO", ["2023"]); ("TRIMESTRE", ["1"]);
   ("COD_DEPARTAMENTO", ["5"]); ("DEPARTAMENTO", ["ANTIOQUIA"]);
   ("COD_MUNICIPIO", ["5001"]); ("MUNICIPIO", ["MEDELLIN"]);
   ("PROVEEDOR", ["CLARO"]); ("TECNOLOGIA", ["FIBRA"])].

(** The same files with every column. *)
Definition cobertura_frame_full : Frame.DataFrame string :=
  ("CABECERA MUNICIPAL", ["MEDELLIN"]) :: cobertura_frame.

Definition accesos_frame_full : Frame.DataFrame string :=
  ("SEGMENTO", ["RESIDENCIAL"]) :: accesos_frame.

(** Coverage rows: two of Medellin under one key, one of Bello, and one
    whose provider is missing. *)
Definition cobertura_medellin : Cobertura.Raw.row :=
  {| Cobertura.Raw.ano := Some 2023; Cobertura.Raw.trimestre := Some 1;
     Cobertura.Raw.departamento := Some "ANTIOQUIA";
     Cobertura.Raw.municipio := Some "MEDELLIN";
     Cobertura.Raw.proveedor := Some "CLARO";
     Cobertura.Raw.centro_poblado := Some "MEDELLIN";
     Cobertura.Raw.cobertura_2g := Some "S"; Cobertura.Raw.cobertura_3g := Some " s";
     Cobertura.Raw.cobertura_4g := Some "S"; Cobertura.Raw.cobertura_5g := Some "N";
     Cobertura.Raw.cobertura_lte := Some "N"; Cobertura.Raw.cobertura_hspa := Some "n" |}.

Definition cobertura_santa_elena : Cobertura.Raw.row :=
  {| Cobertura.Raw.ano := Some 2023; Cobertura.Raw.trimestre := Some 1;
     Cobertura.Raw.departamento := Some "ANTIOQUIA";
     Cobertura.Raw.municipio := Some "MEDELLIN";
     Cobertura.Raw.proveedor := Some "CLARO";
     Cobertura.Raw.centro_poblado := Some "SANTA ELENA";
     Cobertura.Raw.cobertura_2g := Some "S"; Cobertura.Raw.cobertura_3g := Some "N";
     Cobertura.Raw.cobertura_4g := None; Cobertura.Raw.cobertura_5g := None;
     Cobertura.Raw.cobertura_lte := Some "N"; Cobertura.Raw.cobertura_hspa := Some "SI" |}.

Definition cobertura_bello : Cobertura.Raw.row :=
  {| Cobertura.Raw.ano := Some 2023; Cobertura.Raw.trimestre := Some 1;
     Cobertura.Raw.departamento := Some "ANTIOQUIA";
     Cobertura.Raw.municipio := Some "BELLO";
     Cobertura.Raw.proveedor := Some "TIGO";
     Cobertura.Raw.centro_poblado := Some "BELLO";
     Cobertura.Raw.cobertura_2g := Some "S"; Cobertura.Raw.cobertura_3g := Some "S";
     Cobertura.Raw.cobertura_4g := Some "S"; Cobertura.Raw.cobertura_5g := Some "S";
     Cobertura.Raw.cobertura_lte := Some "S"; Cobertura.Raw.cobertura_hspa := Some "S" |}.

Definition cobertura_sin_proveedor : Cobertura.Raw.row :=
  {| Cobertura.Raw.ano := Some 2023; Cobertura.Raw.trimestre := Some 1;
     Cobertura.Raw.departamento := Some "ANTIOQUIA";
     Cobertura.Raw.municipio := Some "ENVIGADO";
     Cobertura.Raw.proveedor := None;
     Cobertura.Raw.centro_poblado := Some "ENVIGADO";
     Cobertura.Raw.cobertura_2g := Some "S"; Cobertura.Raw.cobertura_3g := Some "S";
     Cobertura.Raw.cobertura_4g := Some "S"; Cobertura.Raw.cobertura_5g := Some "N";
     Cobertura.Raw.cobertura_lte := Some "N"; Cobertura.Raw.cobertura_hspa := Some "N" |}.

Definition cobertura_raw : list Cobertura.Raw.row :=
  [cobertura_medellin; cobertura_santa_elena; cobertura_medellin;
   cobertura_bello; cobertura_sin_proveedor].

Definition df_cobertura : list Cobertura.row :=
  Cobertura.transform_cobertura_movil cobertura_raw.

(** Access rows: two of Medellin under the key of the coverage rows, one
    of Bogota, and one whose year is missing. *)
Definition accesos_raw : Accesos.Raw.table :=
  {| Accesos.Raw.rows :=
       [ {| Accesos.Raw.ano := Some 2023; Accesos.Raw.trimestre := Some 1;
            Accesos.Raw.departamento := Some "ANTIOQUIA";
            Accesos.Raw.municipio := Some "MEDELLIN";
            Accesos.Raw.proveedor := Some "CLARO";
            Accesos.Raw.tecnologia := Some "FIBRA" |};
         {| Accesos.Raw.ano := Some 2023; Accesos.Raw.trimestre := Some 1;
            Accesos.Raw.departamento := Some "ANTIOQUIA";
            Accesos.Raw.municipio := Some "MEDELLIN";
            Accesos.Raw.proveedor := Some "CLARO";
            Accesos.Raw.tecnologia := Some "Cable" |};
         {| Accesos.Raw.ano := Some 2023; Accesos.Raw.trimestre := Some 1;
            Accesos.Raw.departamento := Some "BOGOTA D.C.";
            Accesos.Raw.municipio := Some "BOGOTA D.C.";
            Accesos.Raw.proveedor := Some "ETB";
            Accesos.Raw.tecnologia := Some "xDSL" |};
         {| Accesos.Raw.ano := None; Accesos.Raw.trimestre := Some 1;
            Accesos.Raw.departamento := Some "ANTIOQUIA";
            Accesos.Raw.municipio := Some "MEDELLIN";
            Accesos.Raw.proveedor := Some "CLARO";
            Accesos.Raw.tecnologia := None |} ];
     Accesos.Raw.velocidad_bajada :=
       Accesos.ObjectCol [Some "50,0"; Some "12,5"; Some "12.5"; None];
     Accesos.Raw.velocidad_subida :=
       Accesos.ObjectCol [Some "10,0"; Some "2,5"; Some "1"; Some "1"];
     Accesos.Raw.no_de_accesos := Accesos.Int64Col [100; 20; 7; 3] |}.

Definition df_accesos : list Accesos.row :=
  match Accesos.transform_accesos Exact.add accesos_raw with
  | Ok rows => rows
  | Raise _ => []
  end.

Definition k_medellin : Merge.JoinKey :=
  (Some 2023, Some 1, Some "ANTIOQUIA", Some "MEDELLIN", Some "CLARO").
Definition k_bello : Merge.JoinKey :=
  (Some 2023, Some 1, Some "ANTIOQUIA", Some "BELLO", Some "TIGO").
Definition k_bogota : Merge.JoinKey :=
  (Some 2023, Some 1, Some "BOGOTA D.C.", Some "BOGOTA D.C.", Some "ETB").

Definition merged :=
  Merge.merge_datasets Exact.mean_count Exact.mean Exact.sum df_cobertura df_accesos.

(** The coverage of Medellin once grouped: the 5G marker of its two rows is
    false and missing, the HSPA marker is false and missing, the 4G marker
    is true and missing. *)
Definition g_medellin : Merge.CoberturaGrouped.row :=
  {| Merge.CoberturaGrouped.centro_poblado := "MEDELLIN, SANTA ELENA";
     Merge.CoberturaGrouped.cobertura_2g := true;
     Merge.CoberturaGrouped.cobertura_3g := true;
     Merge.CoberturaGrouped.cobertura_hspa := false;
     Merge.CoberturaGrouped.cobertura_4g := true;
     Merge.CoberturaGrouped.cobertura_lte := false;
     Merge.CoberturaGrouped.cobertura_5g := false;
     Merge.CoberturaGrouped.total_tecnologias := Accesos.FNum 2;
     Merge.CoberturaGrouped.tiene_4g_o_mas := true |}.

End Sample.

(** ** The labels of the columns

    Lines 31-38 and 81-84: every label is trimmed, put in small letters and
    has its spaces replaced by underscores; then the label with the misprint
    and the label of the year are renamed when a column carries them.
    [str.strip] and [str.lower] act here on labels such as ['AÑO'], so they
    are parameters of the embedding rather than their ASCII forms. *)

Module Labels.

(** [df.rename(columns={old: new})]: every column labelled [old] is
    labelled [new]. *)
Definition rename {A} (old new : string) (df : Frame.DataFrame A) : Frame.DataFrame A :=
  map (fun col => (if String.eqb (fst col) old then new else fst col, snd col)) df.

(** [if old in df.columns: df.rename(columns={old: new}, inplace=True)] *)
Definition rename_if_present {A} (old new : string) (df : Frame.DataFrame A)
  : Frame.DataFrame A :=
  if Py.mem old (Frame.columns df) then rename old new df else df.

Section Clean.
Variables str_strip str_lower : string -> string.

(** [.str.strip().str.lower().str.replace(" ", "_")] on one label. *)
Definition clean_label (c : string) : string :=
  Py.replace " " "_" (str_lower (str_strip c)).

(** [df.columns = df.columns.str.strip().str.lower().str.replace(" ", "_")] *)
Definition clean_columns {A} (df : Frame.DataFrame A) : Frame.DataFrame A :=
  map (fun col => (clean_label (fst col), snd col)) df.

(** Lines 31-38 of the coverage normalizer. *)
Definition cobertura_labels {A} (df : Frame.DataFrame A) : Frame.DataFrame A :=
  rename_if_present "año" "ano"
    (rename_if_present "cobertuta_4g" "cobertura_4g" (clean_columns df)).

(** Lines 81-84 of the access normalizer. *)
Definition accesos_labels {A} (df : Frame.DataFrame A) : Frame.DataFrame A :=
  rename_if_present "año" "ano" (clean_columns df).

(** The label that a column of the coverage table ends with. *)
Definition cobertura_label (c : string) : string :=
  let c' := clean_label c in
  if String.eqb c' "cobertuta_4g" then "cobertura_4g"
  else if String.eqb c' "año" then "ano"
  else c'.

(** The label that a column of the access table ends with. *)
Definition accesos_label (c : string) : string :=
  let c' := clean_label c in
  if String.eqb c' "año" then "ano" else c'.
End Clean.

End Labels.

(** ** Auxiliary notions for the statements below *)

Module Aux.

(** The strict order in which the groups are listed. *)
Definition key_lt (k1 k2 : Merge.JoinKey) : Prop := Merge.key_compare k1 k2 = Lt.

(** A text made of characters that [p] holds of. *)
Fixpoint all_chars (p : ascii -> bool) (s : string) : bool :=
  match s with
  | EmptyString => true
  | String a s' => p a && all_chars p s'
  end.

(** The number of cells of a column. *)
Definition series_length (col : Accesos.series) : nat :=
  match col with
  | Accesos.ObjectCol cells => length cells
  | Accesos.Float64Col cells => length cells
  | Accesos.Int64Col cells => length cells
  end.

(** A table whose three numeric columns have a cell for every row, as the
    columns of a [DataFrame] do. *)
Definition well_formed (t : Accesos.Raw.table) : Prop :=
  series_length (Accesos.Raw.velocidad_bajada t) = length (Accesos.Raw.rows t) /\
  series_length (Accesos.Raw.velocidad_subida t) = length (Accesos.Raw.rows t) /\
  series_length (Accesos.Raw.no_de_accesos t) = length (Accesos.Raw.rows t).

(** The key cells of a row of the access table before the coercion. *)
Definition raw_key (r : Accesos.Raw.row) : Merge.JoinKey :=
  (Accesos.Raw.ano r, Accesos.Raw.trimestre r, Accesos.Raw.departamento r,
   Accesos.Raw.municipio r, Accesos.Raw.proveedor r).

(** The key cells of a row of the coverage table before the coercion. *)
Definition cobertura_raw_key (r : Cobertura.Raw.row) : Merge.JoinKey :=
  (Cobertura.Raw.ano r, Cobertura.Raw.trimestre r, Cobertura.Raw.departamento r,
   Cobertura.Raw.municipio r, Cobertura.Raw.proveedor r).

End Aux.

(** * Properties *)

(** ** Python helpers *)

Lemma mem_elem_of (x : string) (xs : list string) : Py.mem x xs = true <-> x ∈ xs.
Proof.
  unfold Py.mem. rewrite existsb_exists. split.
  - intros (y & Hy & Heq). apply String.eqb_eq in Heq. subst y.
    by apply list_elem_of_In.
  - intros Hx. exists x. split; [by apply list_elem_of_In | apply String.eqb_refl].
Qed.

Lemma mem_false_not_elem_of (x : string) (xs : list string) :
  Py.mem x xs = false <-> x ∉ xs.
Proof.
  rewrite <- mem_elem_of. destruct (Py.mem x xs); split; intros; congruence.
Qed.

Lemma map_result_ok {A B} (f : A -> result B) (xs : list A) (ys : list B) :
  map_result f xs = Ok ys <-> Forall2 (fun x y => f x = Ok y) xs ys.
Proof.
  revert ys. induction xs as [|x xs IH]; intros ys; simpl.
  - split.
    + intros [= <-]. constructor.
    + intros H. inversion H. reflexivity.
  - split.
    + destruct (f x) as [y|e] eqn:Hfx; simpl; [| discriminate].
      destruct (map_result f xs) as [ys'|e'] eqn:Hxs; simpl; [| discriminate].
      intros [= <-]. constructor; [done | by apply IH].
    + intros H. inversion H as [|? y ? ys' Hy Hrest]; subst.
      apply IH in Hrest. rewrite Hy, Hrest. reflexivity.
Qed.

Lemma map_result_raise {A B} (f : A -> result B) (xs : list A) (x : A) (e : exn) :
  x ∈ xs -> f x = Raise e -> exists e', map_result f xs = Raise e'.
Proof.
  intros Hin Hfx. induction Hin as [x xs | x y xs Hin IH]; simpl.
  - rewrite Hfx. by exists e.
  - destruct (f y); simpl; [| by eexists].
    destruct (IH Hfx) as [e1 ->]. by exists e1.
Qed.

(** ** The classifier *)

Lemma mem_copper_inv (u : string) :
  Py.mem u copper = true -> u = "ADSL" \/ u = "XDSL" \/ u = "DSL".
Proof.
  intros H. apply mem_elem_of in H. unfold copper in H.
  repeat (apply elem_of_cons in H as [-> | H]); auto.
  by apply elem_of_nil in H.
Qed.

(** No text of the list of exact matches contains one of the searched
    substrings, so the first check never hides a later one. *)
Lemma copper_contains_nothing (u sub : string) :
  sub ∈ ["FIBRA"; "SATELITAL"; "WIFI"; "INALAMBRICO"; "CABLE"] ->
  Py.mem u copper = true -> Py.contains sub u = false.
Proof.
  intros Hsub Hu. apply mem_copper_inv in Hu.
  repeat (apply elem_of_cons in Hsub as [-> | Hsub]);
    try (destruct Hu as [-> | [-> | ->]]; reflexivity).
  by apply elem_of_nil in Hsub.
Qed.

(** Membership in, and absence of repetition from, a list that is written
    out are decided by evaluation. *)
Ltac by_evaluation := apply (bool_decide_unpack _); vm_compute; exact I.

(** The body of the function once its conditions are decided. *)
Lemma clasificar_cases (s : string) :
  let u := Py.upper s in
  _clasificar_tecnologia (Some s) =
    if Py.mem u copper then "COBRE"
    else if Py.contains "FIBRA" u then "FIBRA"
    else if Py.contains "SATELITAL" u then "SATELITAL"
    else if Py.contains "WIFI" u || Py.contains "INALAMBRICO" u then "INALÁMBRICA"
    else if Py.contains "CABLE" u then "CABLE"
    else "OTRA".
Proof. reflexivity. Qed.

Ltac decide_checks u :=
  destruct (Py.mem u copper) eqn:?;
  destruct (Py.contains "FIBRA" u) eqn:?;
  destruct (Py.contains "SATELITAL" u) eqn:?;
  destruct (Py.contains "WIFI" u) eqn:?;
  destruct (Py.contains "INALAMBRICO" u) eqn:?;
  destruct (Py.contains "CABLE" u) eqn:?;
  simpl.

(** C2, as the code has it: the classifier searches the Spanish substrings
    only.  For every text [s], whatever its case: if it contains FIBRA the
    label is FIBRA; else if it contains SATELITAL the label is SATELITAL; else
    if it contains WIFI or INALAMBRICO the label is INALÁMBRICA.  A text that
    is not one of ADSL, XDSL, DSL and contains none of FIBRA, SATELITAL, WIFI,
    INALAMBRICO, CABLE gets the label OTRA, whatever English word it holds. *)
Theorem C2_spanish_substrings_only (s : string) :
  let u := Py.upper s in
  (Py.contains "FIBRA" u = true -> _clasificar_tecnologia (Some s) = "FIBRA") /\
  (Py.contains "FIBRA" u = false -> Py.contains "SATELITAL" u = true ->
     _clasificar_tecnologia (Some s) = "SATELITAL") /\
  (Py.contains "FIBRA" u = false -> Py.contains "SATELITAL" u = false ->
     Py.contains "WIFI" u = true \/ Py.contains "INALAMBRICO" u = true ->
     _clasificar_tecnologia (Some s) = "INALÁMBRICA") /\
  (Py.mem u copper = false -> Py.contains "FIBRA" u = false ->
     Py.contains "SATELITAL" u = false -> Py.contains "WIFI" u = false ->
     Py.contains "INALAMBRICO" u = false -> Py.contains "CABLE" u = false ->
     _clasificar_tecnologia (Some s) = "OTRA").
Proof.
  intros u. rewrite clasificar_cases. fold u.
  assert (Hc : forall sub, sub ∈ ["FIBRA"; "SATELITAL"; "WIFI"; "INALAMBRICO"; "CABLE"] ->
                 Py.contains sub u = true -> Py.mem u copper = false).
  { intros sub Hsub Ht. destruct (Py.mem u copper) eqn:Hm; [| reflexivity].
    rewrite (copper_contains_nothing u sub Hsub Hm) in Ht. discriminate. }
  repeat split.
  - intros H. rewrite (Hc "FIBRA"), H; [reflexivity | by_evaluation | done].
  - intros H1 H2. rewrite (Hc "SATELITAL"), H1, H2; [reflexivity | by_evaluation | done].
  - intros H1 H2 [H3 | H3].
    + rewrite (Hc "WIFI"), H1, H2, H3; [reflexivity | by_evaluation | done].
    + rewrite (Hc "INALAMBRICO"), H1, H2, H3; [| by_evaluation | done].
      by rewrite orb_true_r.
  - intros -> -> -> -> -> ->. reflexivity.
Qed.

(** The Spanish words reach their labels and the English ones fall through. *)
Lemma C2_spanish_substrings_only_witness :
  _clasificar_tecnologia (Some "Fibra Optica") = "FIBRA" /\
  _clasificar_tecnologia (Some "internet satelital") = "SATELITAL" /\
  _clasificar_tecnologia (Some "Inalambrico fijo") = "INALÁMBRICA" /\
  _clasificar_tecnologia (Some "Wireless") = "OTRA".
Proof.
  split; [| split; [| split]].
  - by apply (C2_spanish_substrings_only "Fibra Optica").
  - by apply (C2_spanish_substrings_only "internet satelital").
  - apply (C2_spanish_substrings_only "Inalambrico fijo"); [done | done | by right].
  - by apply (C2_spanish_substrings_only "Wireless").
Defined.

(** C2 as stated fails: the texts FIBER, SATELLITE and WIRELESS are not given
    the labels that FIBRA, SATELITAL and INALAMBRICO are given. *)
Lemma C2_english_substrings_not_matched :
  _clasificar_tecnologia (Some "FIBER") <> _clasificar_tecnologia (Some "FIBRA") /\
  _clasificar_tecnologia (Some "SATELLITE") <> _clasificar_tecnologia (Some "SATELITAL") /\
  _clasificar_tecnologia (Some "WIRELESS") <> _clasificar_tecnologia (Some "INALAMBRICO") /\
  _clasificar_tecnologia (Some "FIBER") = "OTRA" /\
  _clasificar_tecnologia (Some "SATELLITE") = "OTRA" /\
  _clasificar_tecnologia (Some "WIRELESS") = "OTRA".
Proof. repeat split; vm_compute; discriminate. Qed.

(** C3: the classifier returns, for every cell, one of six pairwise different
    labels; a missing cell gives OTRA; and for a text the checks are tried in
    the order COBRE (exact match with ADSL, XDSL or DSL), FIBRA, SATELITAL,
    INALÁMBRICA, CABLE, the first that holds giving the label and OTRA being
    left when none holds.  So "CABLE FIBRA" is labelled FIBRA. *)
Theorem C3_classifier_total_first_match :
  (forall tec : option string, _clasificar_tecnologia tec ∈ labels) /\
  NoDup labels /\
  _clasificar_tecnologia None = "OTRA" /\
  (forall s : string,
     let u := Py.upper s in
     (_clasificar_tecnologia (Some s) = "COBRE" <-> Py.mem u copper = true) /\
     (_clasificar_tecnologia (Some s) = "FIBRA" <->
        Py.mem u copper = false /\ Py.contains "FIBRA" u = true) /\
     (_clasificar_tecnologia (Some s) = "SATELITAL" <->
        Py.mem u copper = false /\ Py.contains "FIBRA" u = false /\
        Py.contains "SATELITAL" u = true) /\
     (_clasificar_tecnologia (Some s) = "INALÁMBRICA" <->
        Py.mem u copper = false /\ Py.contains "FIBRA" u = false /\
        Py.contains "SATELITAL" u = false /\
        (Py.contains "WIFI" u = true \/ Py.contains "INALAMBRICO" u = true)) /\
     (_clasificar_tecnologia (Some s) = "CABLE" <->
        Py.mem u copper = false /\ Py.contains "FIBRA" u = false /\
        Py.contains "SATELITAL" u = false /\ Py.contains "WIFI" u = false /\
        Py.contains "INALAMBRICO" u = false /\ Py.contains "CABLE" u = true) /\
     (_clasificar_tecnologia (Some s) = "OTRA" <->
        Py.mem u copper = false /\ Py.contains "FIBRA" u = false /\
        Py.contains "SATELITAL" u = false /\ Py.contains "WIFI" u = false /\
        Py.contains "INALAMBRICO" u = false /\ Py.contains "CABLE" u = false)) /\
  Py.contains "CABLE" (Py.upper "CABLE FIBRA") = true /\
  _clasificar_tecnologia (Some "CABLE FIBRA") = "FIBRA".
Proof.
  split; [| split; [| split; [| split; [| split]]]]; try reflexivity.
  - intros [s|]; [| by_evaluation].
    rewrite clasificar_cases. decide_checks (Py.upper s); by_evaluation.
  - by_evaluation.
  - intros s u. rewrite clasificar_cases. fold u.
    decide_checks u; repeat split; intros; try discriminate; try reflexivity;
      intuition discriminate.
Qed.

(** ** Dropping columns *)

Section Drop.
Context {A : Type}.
Implicit Types (df : Frame.DataFrame A) (labels : list string).

Lemma all_present_iff labels df :
  forallb (fun c => Py.mem c (Frame.columns df)) labels = true <->
  (forall c, c ∈ labels -> c ∈ Frame.columns df).
Proof.
  rewrite forallb_forall. split.
  - intros H c Hc. apply mem_elem_of, H. by apply list_elem_of_In.
  - intros H c Hc. apply mem_elem_of, H. by apply list_elem_of_In.
Qed.

Lemma drop_raises_iff labels df :
  Frame.drop labels df = Raise KeyError <->
  exists c, c ∈ labels /\ c ∉ Frame.columns df.
Proof.
  unfold Frame.drop.
  destruct (forallb _ labels) eqn:Hall.
  - split; [discriminate |].
    intros (c & Hc & Hnot). exfalso. apply Hnot.
    by apply (proj1 (all_present_iff labels df) Hall).
  - split; [intros _ | reflexivity].
    apply not_true_iff_false in Hall. rewrite forallb_forall in Hall.
    destruct (decide (Forall (fun c => c ∈ Frame.columns df) labels)) as [Hf | Hf].
    + exfalso. apply Hall. intros c Hc. apply mem_elem_of.
      rewrite Forall_forall in Hf. by apply Hf, list_elem_of_In.
    + apply not_Forall_Exists in Hf; [| apply _].
      apply Exists_exists in Hf as (c & Hc & Hnot). by exists c.
Qed.

Lemma drop_succeeds labels df :
  (forall c, c ∈ labels -> c ∈ Frame.columns df) ->
  Frame.drop labels df =
    Ok (List.filter (fun col => negb (Py.mem (fst col) labels)) df).
Proof.
  intros H. unfold Frame.drop.
  by rewrite (proj2 (all_present_iff labels df) H).
Qed.

(** The columns that are left are the others, in their order. *)
Lemma columns_filter labels df :
  Frame.columns (List.filter (fun col => negb (Py.mem (fst col) labels)) df) =
  List.filter (fun c => negb (Py.mem c labels)) (Frame.columns df).
Proof.
  unfold Frame.columns. induction df as [|[c cells] df IH]; simpl; [reflexivity |].
  destruct (negb (Py.mem c labels)); simpl; by rewrite IH.
Qed.
End Drop.

(** C1, as the code has it: in both normalizers the drop of the identifying
    columns needs every one of them.  When all the listed columns are in the
    table the step succeeds, taking out exactly those columns and keeping the
    others in their order; when one or more of them is absent the step raises
    [KeyError]. *)
Theorem C1_drop_needs_every_listed_column (A : Type) (df : Frame.DataFrame A) :
  (Cobertura.drop_step df = Raise KeyError <->
     exists c, c ∈ Cobertura.cols_to_drop /\ c ∉ Frame.columns df) /\
  (Accesos.drop_step df = Raise KeyError <->
     exists c, c ∈ Accesos.cols_to_drop /\ c ∉ Frame.columns df) /\
  ((forall c, c ∈ Cobertura.cols_to_drop -> c ∈ Frame.columns df) ->
     let df' := List.filter (fun col => negb (Py.mem (fst col) Cobertura.cols_to_drop)) df in
     Cobertura.drop_step df = Ok df' /\
     Frame.columns df' =
       List.filter (fun c => negb (Py.mem c Cobertura.cols_to_drop)) (Frame.columns df)) /\
  ((forall c, c ∈ Accesos.cols_to_drop -> c ∈ Frame.columns df) ->
     let df' := List.filter (fun col => negb (Py.mem (fst col) Accesos.cols_to_drop)) df in
     Accesos.drop_step df = Ok df' /\
     Frame.columns df' =
       List.filter (fun c => negb (Py.mem c Accesos.cols_to_drop)) (Frame.columns df)).
Proof.
  unfold Cobertura.drop_step, Accesos.drop_step.
  split; [apply drop_raises_iff |].
  split; [apply drop_raises_iff |].
  split; intros H; cbv zeta; (split; [by apply drop_succeeds | apply columns_filter]).
Qed.

(** The two complete sample files lose their identifying columns and keep
    the others. *)
Lemma C1_drop_needs_every_listed_column_witness :
  (exists df', Cobertura.drop_step Sample.cobertura_frame_full = Ok df' /\
     Frame.columns df' =
       ["AÑO"; "TRIMESTRE"; "DEPARTAMENTO"; "MUNICIPIO"; "CENTRO POBLADO";
        "PROVEEDOR"; "COBERTURA 4G"]) /\
  (exists df', Accesos.drop_step Sample.accesos_frame_full = Ok df' /\
     Frame.columns df' =
       ["AÑO"; "TRIMESTRE"; "DEPARTAMENTO"; "MUNICIPIO"; "PROVEEDOR"; "TECNOLOGIA"]).
Proof.
  split; eexists.
  - apply (C1_drop_needs_every_listed_column string Sample.cobertura_frame_full).
    intros c Hc. unfold Cobertura.cols_to_drop in Hc.
    repeat (apply elem_of_cons in Hc as [-> | Hc]); try by_evaluation.
    by apply elem_of_nil in Hc.
  - apply (C1_drop_needs_every_listed_column string Sample.accesos_frame_full).
    intros c Hc. unfold Accesos.cols_to_drop in Hc.
    repeat (apply elem_of_cons in Hc as [-> | Hc]); try by_evaluation.
    by apply elem_of_nil in Hc.
Defined.

(** C1 as stated fails: a coverage table without ['CABECERA MUNICIPAL'] and an
    access table without ['SEGMENTO'] make the drop raise. *)
Lemma C1_drop_of_missing_column_raises :
  Cobertura.drop_step Sample.cobertura_frame = Raise KeyError /\
  Accesos.drop_step Sample.accesos_frame = Raise KeyError.
Proof. split; reflexivity. Qed.

(** ** Lists without repetition *)

Section DropDuplicates.
Context {A : Type} `{EqDecision A}.
Implicit Types (l seen : list A) (x : A).

Lemma drop_duplicates_from_elem_of seen l x :
  x ∈ Frame.drop_duplicates_from seen l <-> x ∈ l /\ x ∉ seen.
Proof.
  revert seen. induction l as [|y l IH]; intros seen; simpl.
  - rewrite elem_of_nil. tauto.
  - destruct (decide (y ∈ seen)) as [Hy | Hy].
    + rewrite IH, elem_of_cons. split; [tauto |].
      intros [[-> | Hx] Hnot]; tauto.
    + rewrite !elem_of_cons, IH, elem_of_cons. split.
      * intros [-> | [Hx Hnot]]; [tauto |]. split; [tauto |].
        intros Hs. apply Hnot. by right.
      * intros [[-> | Hx] Hnot]; [tauto |].
        destruct (decide (x = y)) as [-> | Hne]; [tauto |].
        right. split; [done |]. intros [? | ?]; tauto.
Qed.

Lemma drop_duplicates_elem_of l x : x ∈ Frame.drop_duplicates l <-> x ∈ l.
Proof.
  unfold Frame.drop_duplicates. rewrite drop_duplicates_from_elem_of.
  rewrite elem_of_nil. tauto.
Qed.

Lemma drop_duplicates_from_NoDup seen l : NoDup (Frame.drop_duplicates_from seen l).
Proof.
  revert seen. induction l as [|y l IH]; intros seen; simpl.
  - apply NoDup_nil_2.
  - destruct (decide (y ∈ seen)); [apply IH |].
    apply NoDup_cons. split; [| apply IH].
    rewrite drop_duplicates_from_elem_of, elem_of_cons. tauto.
Qed.

Lemma drop_duplicates_NoDup l : NoDup (Frame.drop_duplicates l).
Proof. apply drop_duplicates_from_NoDup. Qed.
End DropDuplicates.

Lemma elem_of_map {A B} (f : A -> B) (l : list A) (y : B) :
  y ∈ map f l <-> exists x, y = f x /\ x ∈ l.
Proof.
  rewrite list_elem_of_In, in_map_iff. split.
  - intros (x & <- & Hx). exists x. by rewrite list_elem_of_In.
  - intros (x & -> & Hx). exists x. by rewrite <- list_elem_of_In.
Qed.

Lemma elem_of_filter_bool {A} (f : A -> bool) (l : list A) (x : A) :
  x ∈ List.filter f l <-> x ∈ l /\ f x = true.
Proof. by rewrite !list_elem_of_In, filter_In. Qed.

Lemma NoDup_filter_bool {A} (f : A -> bool) (l : list A) :
  NoDup l -> NoDup (List.filter f l).
Proof.
  induction 1 as [|x l Hx Hl IH]; simpl; [constructor |].
  destruct (f x); [| exact IH].
  constructor; [| exact IH]. rewrite elem_of_filter_bool. tauto.
Qed.

(** ** The coverage normalizer *)

(** Every row of the normalized table is the image of a row of the table. *)
Lemma transform_cobertura_movil_row (raws : list Cobertura.Raw.row) (r : Cobertura.row) :
  r ∈ Cobertura.transform_cobertura_movil raws <->
  exists raw, r = Cobertura.transform_row raw /\ raw ∈ raws.
Proof.
  unfold Cobertura.transform_cobertura_movil.
  by rewrite drop_duplicates_elem_of, elem_of_map.
Qed.

Lemma marker_dict_lookup (u : string) :
  Cobertura.marker_dict !! u =
    if decide (u = "S") then Some true
    else if decide (u = "N") then Some false
    else None.
Proof.
  unfold Cobertura.marker_dict.
  destruct (decide (u = "S")) as [-> | HS]; [by rewrite lookup_insert_eq |].
  rewrite lookup_insert_ne by done.
  destruct (decide (u = "N")) as [-> | HN]; [by rewrite lookup_insert_eq |].
  rewrite lookup_insert_ne by done. apply lookup_empty.
Qed.

(** C6: a technology marker becomes true exactly when the cell, trimmed and
    put in capitals, is the text S, false exactly when it is N, and missing in
    every other case; a missing cell stays missing.  The six markers of a
    normalized row are the cells of the row coerced this way. *)
Theorem C6_marker_coercion :
  (forall c : option string,
     let v := Py.upper (Py.strip (Frame.astype_str c)) in
     (Cobertura.coerce_marker c = Some true <-> v = "S") /\
     (Cobertura.coerce_marker c = Some false <-> v = "N") /\
     (Cobertura.coerce_marker c = None <-> v <> "S" /\ v <> "N")) /\
  Cobertura.coerce_marker None = None /\
  (forall raw : Cobertura.Raw.row,
     Cobertura.tech_cols (Cobertura.transform_row raw) =
       map Cobertura.coerce_marker
         [Cobertura.Raw.cobertura_2g raw; Cobertura.Raw.cobertura_3g raw;
          Cobertura.Raw.cobertura_4g raw; Cobertura.Raw.cobertura_5g raw;
          Cobertura.Raw.cobertura_lte raw; Cobertura.Raw.cobertura_hspa raw]).
Proof.
  split; [| split; [| reflexivity]].
  - intros c v. unfold Cobertura.coerce_marker. fold v. rewrite marker_dict_lookup.
    destruct (decide (v = "S")) as [HS | HS]; [| destruct (decide (v = "N")) as [HN | HN]].
    + rewrite HS. repeat split; intros; try done. tauto.
    + rewrite HN. repeat split; intros; try done. tauto.
    + repeat split; intros; try done.
  - unfold Cobertura.coerce_marker. rewrite marker_dict_lookup. reflexivity.
Qed.

Lemma sum_skipna_count (ms : list (option bool)) :
  Cobertura.sum_skipna ms =
    Z.of_nat (length (List.filter (fun m => bool_decide (m = Some true)) ms)) /\
  0 <= Cobertura.sum_skipna ms <= Z.of_nat (length ms).
Proof.
  induction ms as [|[[|]|] ms [IH1 IH2]]; simpl in *; split; lia.
Qed.

(** C7: in every row of the normalized coverage table [total_tecnologias] is
    the number of the six markers of the row that are true, a missing marker
    counting for nothing; so it lies between 0 and 6. *)
Theorem C7_total_tecnologias_counts_true (raws : list Cobertura.Raw.row) (r : Cobertura.row) :
  r ∈ Cobertura.transform_cobertura_movil raws ->
  Cobertura.total_tecnologias r =
    Z.of_nat (length (List.filter (fun m => bool_decide (m = Some true)) (Cobertura.tech_cols r))) /\
  0 <= Cobertura.total_tecnologias r <= 6.
Proof.
  intros Hr. apply transform_cobertura_movil_row in Hr as (raw & -> & _).
  unfold Cobertura.tech_cols. cbn [Cobertura.transform_row Cobertura.total_tecnologias
    Cobertura.cobertura_2g Cobertura.cobertura_3g Cobertura.cobertura_4g
    Cobertura.cobertura_5g Cobertura.cobertura_lte Cobertura.cobertura_hspa].
  match goal with |- Cobertura.sum_skipna ?l = _ /\ _ =>
    destruct (sum_skipna_count l) as [H1 H2]; split; [exact H1 | simpl length in H2; lia]
  end.
Qed.

(** The second sample row has one marker that is true, two that are false
    and three that are missing. *)
Lemma C7_total_tecnologias_counts_true_witness :
  Cobertura.total_tecnologias (Cobertura.transform_row Sample.cobertura_santa_elena) =
    Z.of_nat (length (List.filter (fun m => bool_decide (m = Some true))
      (Cobertura.tech_cols (Cobertura.transform_row Sample.cobertura_santa_elena)))) /\
  0 <= Cobertura.total_tecnologias (Cobertura.transform_row Sample.cobertura_santa_elena) <= 6.
Proof.
  apply (C7_total_tecnologias_counts_true Sample.cobertura_raw).
  by_evaluation.
Defined.

(** C4: in every row of the normalized coverage table [tiene_4g_o_mas] is the
    three-valued disjunction of the markers 4G, LTE and 5G: true exactly when
    one of the three is true, false exactly when the three are false, and
    missing exactly when none is true and one at least is missing. *)
Theorem C4_tiene_4g_o_mas_kleene (raws : list Cobertura.Raw.row) (r : Cobertura.row) :
  r ∈ Cobertura.transform_cobertura_movil raws ->
  Cobertura.tiene_4g_o_mas r =
    Cobertura.kleene_or
      (Cobertura.kleene_or (Cobertura.cobertura_4g r) (Cobertura.cobertura_lte r))
      (Cobertura.cobertura_5g r) /\
  (Cobertura.tiene_4g_o_mas r = Some true <->
     Cobertura.cobertura_4g r = Some true \/ Cobertura.cobertura_lte r = Some true \/
     Cobertura.cobertura_5g r = Some true) /\
  (Cobertura.tiene_4g_o_mas r = Some false <->
     Cobertura.cobertura_4g r = Some false /\ Cobertura.cobertura_lte r = Some false /\
     Cobertura.cobertura_5g r = Some false) /\
  (Cobertura.tiene_4g_o_mas r = None <->
     (Cobertura.cobertura_4g r <> Some true /\ Cobertura.cobertura_lte r <> Some true /\
      Cobertura.cobertura_5g r <> Some true) /\
     (Cobertura.cobertura_4g r = None \/ Cobertura.cobertura_lte r = None \/
      Cobertura.cobertura_5g r = None)).
Proof.
  intros Hr. apply transform_cobertura_movil_row in Hr as (raw & -> & _).
  cbn [Cobertura.transform_row Cobertura.tiene_4g_o_mas Cobertura.cobertura_4g
    Cobertura.cobertura_5g Cobertura.cobertura_lte].
  split; [reflexivity |].
  destruct (Cobertura.coerce_marker (Cobertura.Raw.cobertura_4g raw)) as [[|]|];
    destruct (Cobertura.coerce_marker (Cobertura.Raw.cobertura_lte raw)) as [[|]|];
    destruct (Cobertura.coerce_marker (Cobertura.Raw.cobertura_5g raw)) as [[|]|];
    simpl; intuition congruence.
Qed.

(** In the second sample row 4G and 5G are missing and LTE is false: the
    derived field is missing. *)
Lemma C4_tiene_4g_o_mas_kleene_witness :
  Cobertura.tiene_4g_o_mas (Cobertura.transform_row Sample.cobertura_santa_elena) = None.
Proof.
  apply (C4_tiene_4g_o_mas_kleene Sample.cobertura_raw); [by_evaluation |].
  vm_compute. repeat split; try discriminate. by left.
Defined.

(** ** Numeric coercion *)

(** The pass over the underscores leaves a text that has none as it is. *)
Lemma without_underscores_id (prev : ascii) (s : string) :
  prev <> "_"%char -> Py.contains "_" s = false ->
  Accesos.without_underscores prev s = Some s.
Proof.
  revert prev. induction s as [|c s IH]; intros prev Hprev Hs; simpl.
  - apply Ascii.eqb_neq in Hprev. by rewrite Hprev.
  - cbn [Py.contains String.prefix] in Hs. apply orb_false_iff in Hs as [Hc Hs].
    destruct (ascii_dec "_" c) as [<- | Hne]; [by destruct s |].
    assert (Hc' : Ascii.eqb c "_" = false) by (apply Ascii.eqb_neq; congruence).
    apply Ascii.eqb_neq in Hprev. rewrite Hc', Hprev. simpl.
    rewrite IH; [reflexivity | congruence | exact Hs].
Qed.

Lemma py_float_raises_value_error (s : string) (e : exn) :
  Accesos.py_float s = Raise e -> e = ValueError.
Proof.
  unfold Accesos.py_float.
  destruct (Accesos.without_underscores _ _) as [t|]; [| congruence].
  destruct (Accesos.take_sign _) as [neg body].
  destruct (Py.mem _ _); [discriminate |].
  destruct (String.eqb _ _); [discriminate |].
  destruct (Accesos.parse_number neg body); congruence.
Qed.

Lemma map_result_raises_only {A B} (f : A -> result B) (xs : list A) (e0 e : exn) :
  (forall x e', f x = Raise e' -> e' = e0) ->
  map_result f xs = Raise e -> e = e0.
Proof.
  intros Hf. induction xs as [|x xs IH]; simpl; [discriminate |].
  destruct (f x) as [y|e1] eqn:Hfx; simpl.
  - destruct (map_result f xs) as [ys|e2]; simpl; [discriminate |].
    intros [= <-]. by apply IH.
  - intros [= <-]. by apply (Hf x).
Qed.

Lemma coerce_numeric_raises_value_error (col : Accesos.series) (e : exn) :
  Accesos.coerce_numeric col = Raise e -> e = ValueError.
Proof.
  destruct col as [cells | cells | cells]; simpl; [| discriminate | discriminate].
  apply map_result_raises_only. apply py_float_raises_value_error.
Qed.

Lemma coerce_numeric_object_raises (cells : list (option string)) (c : option string) :
  c ∈ cells ->
  Accesos.py_float (Accesos.comma_to_period c) = Raise ValueError ->
  Accesos.coerce_numeric (Accesos.ObjectCol cells) = Raise ValueError.
Proof.
  intros Hc Hraise. simpl.
  destruct (map_result_raise Accesos.py_float (map Accesos.comma_to_period cells)
              (Accesos.comma_to_period c) ValueError) as [e He]; [| done |].
  - apply elem_of_map. by exists c.
  - rewrite He. f_equal.
    exact (map_result_raises_only Accesos.py_float _ ValueError e
             py_float_raises_value_error He).
Qed.

Lemma Forall2_map_l {A B C} (f : A -> B) (P : B -> C -> Prop) (xs : list A) (ys : list C) :
  Forall2 P (map f xs) ys <-> Forall2 (fun x y => P (f x) y) xs ys.
Proof.
  revert ys. induction xs as [|x xs IH]; intros ys; simpl.
  - split; intros H; inversion H; constructor.
  - split; intros H; inversion H; subst; constructor; try done; by apply IH.
Qed.

(** No comma is left by the replacement. *)
Lemma comma_to_period_no_comma (c : option string) :
  Py.contains "," (Accesos.comma_to_period c) = false.
Proof.
  unfold Accesos.comma_to_period, Py.replace.
  induction (Frame.astype_str c) as [|a s IH]; [reflexivity |].
  cbn [Py.map_chars Py.contains String.prefix]. rewrite IH.
  destruct (Ascii.eqb a ",") eqn:Ha.
  - destruct (ascii_dec "," "."); [discriminate | reflexivity].
  - destruct (ascii_dec "," a) as [<- | _]; [| reflexivity].
    by rewrite Ascii.eqb_refl in Ha.
Qed.

(** C8: on a textual column the coercion first replaces every comma by a
    period and then parses each cell to a float, so "12,5" and "12.5" give
    the same number 12.5; an empty or null stored value, which is a missing
    cell, gives the null number and not zero, in a column of texts as in a
    column that is already numeric; and a cell that is present, not empty and
    not the text of a number makes the coercion raise [ValueError]. *)
Theorem C8_numeric_coercion :
  (forall cells out,
     Accesos.coerce_numeric (Accesos.ObjectCol cells) = Ok out <->
     Forall2 (fun c x =>
                Accesos.py_float (Py.replace "," "." (Frame.astype_str c)) = Ok x)
             cells out) /\
  (forall c, Py.contains "," (Accesos.comma_to_period c) = false) /\
  Accesos.coerce_numeric (Accesos.ObjectCol [Some "12,5"]) = Ok [Accesos.FNum (25 # 2)] /\
  Accesos.coerce_numeric (Accesos.ObjectCol [Some "12.5"]) = Ok [Accesos.FNum (25 # 2)] /\
  (forall cells out (i : nat),
     Accesos.coerce_numeric (Accesos.ObjectCol cells) = Ok out ->
     cells !! i = Some None -> out !! i = Some Accesos.FNan) /\
  (forall cells, Accesos.coerce_numeric (Accesos.Float64Col cells) = Ok cells) /\
  Accesos.FNan <> Accesos.FNum 0 /\
  (forall cells s,
     Some s ∈ cells -> s <> "" ->
     Accesos.py_float (Accesos.comma_to_period (Some s)) = Raise ValueError ->
     Accesos.coerce_numeric (Accesos.ObjectCol cells) = Raise ValueError).
Proof.
  split; [| split; [| split; [| split; [| split; [| split; [| split]]]]]];
    try reflexivity.
  - intros cells out. simpl. rewrite map_result_ok. apply Forall2_map_l.
  - apply comma_to_period_no_comma.
  - intros cells out i Hok Hi. simpl in Hok.
    apply map_result_ok, Forall2_map_l in Hok.
    destruct (Forall2_lookup_l _ _ _ _ _ Hok Hi) as (x & Hx & Hfx).
    rewrite Hx. f_equal. vm_compute in Hfx. congruence.
  - discriminate.
  - intros cells s Hin _. by apply coerce_numeric_object_raises.
Qed.

(** In the sample column the cell "12,5" and the cell "12.5" are read as the
    same number and the missing cell as the null number; a column with the
    cell "abc" makes the coercion raise. *)
Lemma C8_numeric_coercion_witness :
  Accesos.coerce_numeric (Accesos.ObjectCol [Some "50,0"; Some "12,5"; Some "12.5"; None]) =
    Ok [Accesos.FNum 50; Accesos.FNum (25 # 2); Accesos.FNum (25 # 2); Accesos.FNan] /\
  [Some "50,0"; Some "12,5"; Some "12.5"; @None string] !! 3%nat = Some None /\
  Accesos.coerce_numeric (Accesos.ObjectCol [Some "12,5"; Some "abc"]) = Raise ValueError.
Proof.
  split; [| split].
  - apply (proj1 C8_numeric_coercion). repeat constructor.
  - reflexivity.
  - apply (proj2 (proj2 (proj2 (proj2 (proj2 (proj2 (proj2 C8_numeric_coercion))))))
             [Some "12,5"; Some "abc"] "abc"); [by_evaluation | discriminate | reflexivity].
Defined.

(** ** Grouping *)

Lemma lex_opp (c1 c2 : comparison) :
  Merge.lex (CompOpp c1) (CompOpp c2) = CompOpp (Merge.lex c1 c2).
Proof. by destruct c1. Qed.

Lemma compare_cell_antisym {A} (cmp : A -> A -> comparison) (x y : option A) :
  (forall a b, cmp b a = CompOpp (cmp a b)) ->
  Merge.compare_cell cmp y x = CompOpp (Merge.compare_cell cmp x y).
Proof. intros Hcmp. destruct x, y; simpl; auto. Qed.

Lemma key_compare_antisym (k1 k2 : Merge.JoinKey) :
  Merge.key_compare k2 k1 = CompOpp (Merge.key_compare k1 k2).
Proof.
  destruct k1 as [[[[a1 t1] d1] m1] p1], k2 as [[[[a2 t2] d2] m2] p2].
  unfold Merge.key_compare.
  rewrite <- !lex_opp.
  rewrite <- !(compare_cell_antisym Z.compare) by (intros; apply Z.compare_antisym).
  by rewrite <- !(compare_cell_antisym String.compare)
    by (intros; apply String.compare_antisym).
Qed.

#[global] Instance key_le_total : Total Merge.key_le.
Proof.
  intros k1 k2. unfold Merge.key_le. rewrite (key_compare_antisym k1 k2).
  destruct (Merge.key_compare k1 k2); simpl; auto.
Qed.

Section Groupby.
Context {A : Type} (key : A -> Merge.JoinKey).
Implicit Types (rows g : list A) (k : Merge.JoinKey).

Lemma groupby_keys rows :
  map fst (Merge.groupby key rows) =
  merge_sort Merge.key_le
    (Frame.drop_duplicates
       (map key (List.filter (fun r => Merge.key_notnull (key r)) rows))).
Proof.
  unfold Merge.groupby. rewrite map_map. simpl. apply map_id.
Qed.

Lemma groupby_key_elem_of rows k :
  k ∈ map fst (Merge.groupby key rows) <->
  Merge.key_notnull k = true /\ exists r, r ∈ rows /\ key r = k.
Proof.
  rewrite groupby_keys, merge_sort_Permutation, drop_duplicates_elem_of, elem_of_map.
  split.
  - intros (r & -> & Hr). apply elem_of_filter_bool in Hr as [Hr Hk]. eauto.
  - intros (Hk & r & Hr & <-). exists r. split; [done |].
    by apply elem_of_filter_bool.
Qed.

Lemma groupby_keys_NoDup rows : NoDup (map fst (Merge.groupby key rows)).
Proof.
  rewrite groupby_keys, merge_sort_Permutation. apply drop_duplicates_NoDup.
Qed.

(** The rows under a key that has no missing cell all pass the filter of
    the grouping. *)
Lemma rows_of_notnull rows k :
  Merge.key_notnull k = true ->
  Merge.rows_of key k (List.filter (fun r => Merge.key_notnull (key r)) rows) =
  Merge.rows_of key k rows.
Proof.
  intros Hk. unfold Merge.rows_of.
  induction rows as [|r rows IH]; simpl; [reflexivity |].
  destruct (bool_decide (key r = k)) eqn:Hrk.
  - apply bool_decide_eq_true in Hrk. rewrite Hrk, Hk. simpl.
    rewrite bool_decide_true by done. by rewrite IH.
  - destruct (Merge.key_notnull (key r)); simpl; [rewrite Hrk |]; apply IH.
Qed.

Lemma groupby_elem_of rows k g :
  (k, g) ∈ Merge.groupby key rows ->
  Merge.key_notnull k = true /\ g = Merge.rows_of key k rows /\
  exists r, r ∈ rows /\ key r = k.
Proof.
  intros Hin.
  assert (Hk : k ∈ map fst (Merge.groupby key rows)).
  { apply elem_of_map. by exists (k, g). }
  apply groupby_key_elem_of in Hk as [Hk Hr].
  split; [done |]. split; [| done].
  unfold Merge.groupby in Hin. apply elem_of_map in Hin as (k' & [= <- ->] & _).
  by apply rows_of_notnull.
Qed.

(** The groups come in ascending order of their keys. *)
Lemma groupby_keys_sorted rows : Sorted Merge.key_le (map fst (Merge.groupby key rows)).
Proof. rewrite groupby_keys. apply (Sorted_merge_sort _). Qed.

(** A row with a missing key cell is left out. *)
Lemma groupby_skips_null l1 l2 (r : A) :
  Merge.key_notnull (key r) = false ->
  Merge.groupby key (l1 ++ r :: l2) = Merge.groupby key (l1 ++ l2).
Proof.
  intros Hr. unfold Merge.groupby.
  rewrite !List.filter_app. simpl. by rewrite Hr.
Qed.
End Groupby.

Lemma any_skipna_true (ms : list (option bool)) :
  Merge.any_skipna ms = true <-> Some true ∈ ms.
Proof.
  unfold Merge.any_skipna. rewrite existsb_exists. split.
  - intros ([[|]|] & Hin & Hb); try discriminate. by apply list_elem_of_In.
  - intros Hin. exists (Some true). split; [by apply list_elem_of_In | reflexivity].
Qed.

Lemma any_skipna_false (ms : list (option bool)) :
  (forall m, m ∈ ms -> m = None \/ m = Some false) -> Merge.any_skipna ms = false.
Proof.
  intros H. apply not_true_iff_false. rewrite any_skipna_true.
  intros Hin. destruct (H _ Hin); discriminate.
Qed.

Section Grouped.
Variable mean_count : list Z -> Accesos.pyfloat.
Variables mean sum : list Accesos.pyfloat -> Accesos.pyfloat.

Lemma cobertura_grouped_keys df :
  map fst (Merge.cobertura_grouped mean_count df) =
  map fst (Merge.groupby Merge.cobertura_key df).
Proof. unfold Merge.cobertura_grouped. by rewrite map_map. Qed.

Lemma accesos_grouped_keys df :
  map fst (Merge.accesos_grouped mean sum df) =
  map fst (Merge.groupby Merge.accesos_key df).
Proof. unfold Merge.accesos_grouped. by rewrite map_map. Qed.

Lemma cobertura_grouped_elem_of df k g :
  (k, g) ∈ Merge.cobertura_grouped mean_count df ->
  Merge.key_notnull k = true /\
  g = Merge.agg_cobertura mean_count (Merge.rows_of Merge.cobertura_key k df).
Proof.
  unfold Merge.cobertura_grouped. intros Hin.
  apply elem_of_map in Hin as ([k' rows] & [= -> ->] & Hin). simpl.
  apply groupby_elem_of in Hin as (Hk & -> & _). done.
Qed.
End Grouped.

(** C5: in the grouped coverage table each of the six technology markers of
    a group is the reduction ['any'] of that marker over the rows of the
    group, and this reduction passes over missing values: it is true exactly
    when some row has the marker true, so a group whose markers are only
    missing or false gives false.  The disjunction of a row is different:
    missing or false is missing there. *)
Theorem C5_group_any_treats_missing_as_false
    (mean_count : list Z -> Accesos.pyfloat)
    (df : list Cobertura.row) (k : Merge.JoinKey) (g : Merge.CoberturaGrouped.row) :
  (k, g) ∈ Merge.cobertura_grouped mean_count df ->
  let rows := Merge.rows_of Merge.cobertura_key k df in
  (Merge.CoberturaGrouped.cobertura_2g g = Merge.any_skipna (map Cobertura.cobertura_2g rows) /\
   Merge.CoberturaGrouped.cobertura_3g g = Merge.any_skipna (map Cobertura.cobertura_3g rows) /\
   Merge.CoberturaGrouped.cobertura_hspa g = Merge.any_skipna (map Cobertura.cobertura_hspa rows) /\
   Merge.CoberturaGrouped.cobertura_4g g = Merge.any_skipna (map Cobertura.cobertura_4g rows) /\
   Merge.CoberturaGrouped.cobertura_lte g = Merge.any_skipna (map Cobertura.cobertura_lte rows) /\
   Merge.CoberturaGrouped.cobertura_5g g = Merge.any_skipna (map Cobertura.cobertura_5g rows)) /\
  (forall ms, Merge.any_skipna ms = true <-> Some true ∈ ms) /\
  (forall ms, (forall m, m ∈ ms -> m = None \/ m = Some false) -> Merge.any_skipna ms = false) /\
  Merge.any_skipna [None; Some false] = false /\
  Cobertura.kleene_or None (Some false) = None.
Proof.
  intros Hin rows. apply cobertura_grouped_elem_of in Hin as [_ ->].
  split; [by repeat split |].
  split; [apply any_skipna_true |].
  split; [apply any_skipna_false |].
  split; reflexivity.
Qed.

(** The two rows of Medellin: 5G is false in one and missing in the other,
    and the group has 5G false. *)
Lemma C5_group_any_treats_missing_as_false_witness :
  (Sample.k_medellin, Sample.g_medellin) ∈
    Merge.cobertura_grouped Exact.mean_count Sample.df_cobertura /\
  map Cobertura.cobertura_5g
    (Merge.rows_of Merge.cobertura_key Sample.k_medellin Sample.df_cobertura) =
    [Some false; None] /\
  Merge.CoberturaGrouped.cobertura_5g Sample.g_medellin =
    Merge.any_skipna (map Cobertura.cobertura_5g
      (Merge.rows_of Merge.cobertura_key Sample.k_medellin Sample.df_cobertura)).
Proof.
  assert (Hin : (Sample.k_medellin, Sample.g_medellin) ∈
                  Merge.cobertura_grouped Exact.mean_count Sample.df_cobertura)
    by by_evaluation.
  split; [exact Hin |]. split; [by vm_compute |].
  apply (C5_group_any_treats_missing_as_false Exact.mean_count _ _ _ Hin).
Defined.

(** ** Joining *)

Section MergeInner.
Context {B C : Type}.
Implicit Types (L : list (Merge.JoinKey * B)) (R : list (Merge.JoinKey * C)).
Implicit Types (k : Merge.JoinKey).

Lemma merge_inner_elem_of L R k (b : B) (c : C) :
  (k, b, c) ∈ Merge.merge_inner L R <-> (k, b) ∈ L /\ (k, c) ∈ R.
Proof.
  unfold Merge.merge_inner. rewrite list_elem_of_In, in_flat_map. split.
  - intros ([k1 b1] & Hl & Hin). apply in_flat_map in Hin as ([k2 c2] & Hr & Hin).
    simpl in Hin. destruct (decide (k1 = k2)) as [<- | _]; [| by destruct Hin].
    destruct Hin as [[= <- <- <-] | []]. by rewrite !list_elem_of_In.
  - intros [Hl Hr]. exists (k, b). split; [by apply list_elem_of_In |].
    apply in_flat_map. exists (k, c). split; [by apply list_elem_of_In |].
    simpl. rewrite decide_True by done. by left.
Qed.

(** Against a right table without repeated keys a left row finds one
    partner at most. *)
Lemma partners_of_key R k (b : B) :
  NoDup (map fst R) ->
  map Merge.merged_key
    (flat_map (fun r => if decide (k = fst r) then [(k, b, snd r)] else []) R) =
  if decide (k ∈ map fst R) then [k] else [].
Proof.
  induction R as [|[k' c] R IH]; intros Hnd.
  - rewrite decide_False; [done | apply not_elem_of_nil].
  - cbn [map fst] in Hnd. apply NoDup_cons in Hnd as [Hnot Hnd]. specialize (IH Hnd).
    cbn [flat_map map fst snd]. rewrite map_app, IH.
    destruct (decide (k = k')) as [<- | Hne].
    + rewrite (decide_False (P := k ∈ map fst R)) by done.
      rewrite decide_True; [done | by left].
    + destruct (decide (k ∈ map fst R)) as [Hin | Hin].
      * rewrite decide_True; [done | by right].
      * rewrite decide_False; [done |]. rewrite elem_of_cons. tauto.
Qed.

(** The keys of the join are the keys of the left table that the right
    table has, in the order of the left table. *)
Lemma merge_inner_keys L R :
  NoDup (map fst R) ->
  map Merge.merged_key (Merge.merge_inner L R) =
  List.filter (fun k => bool_decide (k ∈ map fst R)) (map fst L).
Proof.
  intros Hnd. unfold Merge.merge_inner.
  induction L as [|[k b] L IH]; [reflexivity |].
  cbn [flat_map map fst snd List.filter].
  rewrite map_app, IH, (partners_of_key R k b Hnd).
  destruct (decide (k ∈ map fst R)) as [Hin | Hin].
  - by rewrite bool_decide_true.
  - by rewrite bool_decide_false.
Qed.
End MergeInner.

Section MergeDatasets.
Variable mean_count : list Z -> Accesos.pyfloat.
Variables mean sum : list Accesos.pyfloat -> Accesos.pyfloat.
Variable df_cobertura : list Cobertura.row.
Variable df_accesos : list Accesos.row.

Lemma cobertura_grouped_keys_NoDup :
  NoDup (map fst (Merge.cobertura_grouped mean_count df_cobertura)).
Proof. rewrite cobertura_grouped_keys. apply groupby_keys_NoDup. Qed.

Lemma accesos_grouped_keys_NoDup :
  NoDup (map fst (Merge.accesos_grouped mean sum df_accesos)).
Proof. rewrite accesos_grouped_keys. apply groupby_keys_NoDup. Qed.

Lemma merge_datasets_keys :
  map Merge.merged_key (Merge.merge_datasets mean_count mean sum df_cobertura df_accesos) =
  List.filter
    (fun k => bool_decide (k ∈ map fst (Merge.accesos_grouped mean sum df_accesos)))
    (map fst (Merge.cobertura_grouped mean_count df_cobertura)).
Proof.
  unfold Merge.merge_datasets. apply merge_inner_keys, accesos_grouped_keys_NoDup.
Qed.

Lemma merge_datasets_key_elem_of (k : Merge.JoinKey) :
  k ∈ map Merge.merged_key
        (Merge.merge_datasets mean_count mean sum df_cobertura df_accesos) <->
  k ∈ map fst (Merge.cobertura_grouped mean_count df_cobertura) /\
  k ∈ map fst (Merge.accesos_grouped mean sum df_accesos).
Proof.
  rewrite merge_datasets_keys, elem_of_filter_bool, bool_decide_eq_true. tauto.
Qed.
End MergeDatasets.

(** C9: the merge is an inner join on the key.  The keys of the merged table
    are exactly the keys that the grouped coverage table and the grouped
    access table both have; each of them has one row, which holds the grouped
    coverage and the grouped accesses of that key; a key of one grouping only
    has no row. *)
Theorem C9_inner_join_on_key
    (mean_count : list Z -> Accesos.pyfloat)
    (mean sum : list Accesos.pyfloat -> Accesos.pyfloat)
    (df_cobertura : list Cobertura.row) (df_accesos : list Accesos.row) :
  let cg := Merge.cobertura_grouped mean_count df_cobertura in
  let ag := Merge.accesos_grouped mean sum df_accesos in
  let out := Merge.merge_datasets mean_count mean sum df_cobertura df_accesos in
  (list_to_set (map Merge.merged_key out) : gset Merge.JoinKey) =
    list_to_set (map fst cg) ∩ list_to_set (map fst ag) /\
  NoDup (map Merge.merged_key out) /\
  length out = size ((list_to_set (map fst cg) : gset Merge.JoinKey) ∩ list_to_set (map fst ag)) /\
  (forall k, k ∈ map Merge.merged_key out <-> k ∈ map fst cg /\ k ∈ map fst ag) /\
  (forall k b c, (k, b, c) ∈ out <-> (k, b) ∈ cg /\ (k, c) ∈ ag).
Proof.
  intros cg ag out.
  assert (Hiff : forall k, k ∈ map Merge.merged_key out <-> k ∈ map fst cg /\ k ∈ map fst ag)
    by apply merge_datasets_key_elem_of.
  assert (Hnd : NoDup (map Merge.merged_key out)).
  { subst out. rewrite merge_datasets_keys.
    apply NoDup_filter_bool, cobertura_grouped_keys_NoDup. }
  assert (Hset : (list_to_set (map Merge.merged_key out) : gset Merge.JoinKey) =
                 list_to_set (map fst cg) ∩ list_to_set (map fst ag)).
  { apply set_eq. intros k.
    rewrite elem_of_intersection, !elem_of_list_to_set. apply Hiff. }
  split; [exact Hset |]. split; [exact Hnd |].
  split; [| split; [exact Hiff |]].
  - rewrite <- Hset, size_list_to_set by done. by rewrite length_map.
  - intros k b c. subst out. unfold Merge.merge_datasets. apply merge_inner_elem_of.
Qed.

(** The sample tables: the coverage has the keys of Bello and Medellin, the
    accesses those of Medellin and Bogota, the merged table that of Medellin. *)
Example merge_sample_keys :
  map fst (Merge.cobertura_grouped Exact.mean_count Sample.df_cobertura) =
    [Sample.k_bello; Sample.k_medellin] /\
  map fst (Merge.accesos_grouped Exact.mean Exact.sum Sample.df_accesos) =
    [Sample.k_medellin; Sample.k_bogota] /\
  map Merge.merged_key Sample.merged = [Sample.k_medellin].
Proof. split; [| split]; vm_compute; reflexivity. Qed.

Lemma notnull_is_Some {A} (x : option A) : Merge.notnull x = true <-> is_Some x.
Proof.
  destruct x; simpl; split; done.
Qed.

Lemma key_notnull_spec (a t : option Z) (d m p : option string) :
  Merge.key_notnull (a, t, d, m, p) = true <->
  is_Some a /\ is_Some t /\ is_Some d /\ is_Some m /\ is_Some p.
Proof.
  unfold Merge.key_notnull. rewrite !andb_true_iff, !notnull_is_Some. tauto.
Qed.

(** C10: no row of the grouped coverage table, of the grouped access table
    or of the merged table has a missing cell in one of the five key columns;
    and a normalized row with a missing key cell adds nothing: the groupings
    and the merged table are what they are without that row. *)
Theorem C10_join_key_never_missing
    (mean_count : list Z -> Accesos.pyfloat)
    (mean sum : list Accesos.pyfloat -> Accesos.pyfloat)
    (df_cobertura : list Cobertura.row) (df_accesos : list Accesos.row) :
  (forall a t d m p,
     Merge.key_notnull (a, t, d, m, p) = true <->
     is_Some a /\ is_Some t /\ is_Some d /\ is_Some m /\ is_Some p) /\
  (forall k, k ∈ map fst (Merge.cobertura_grouped mean_count df_cobertura) ->
     Merge.key_notnull k = true) /\
  (forall k, k ∈ map fst (Merge.accesos_grouped mean sum df_accesos) ->
     Merge.key_notnull k = true) /\
  (forall k,
     k ∈ map Merge.merged_key (Merge.merge_datasets mean_count mean sum df_cobertura df_accesos) ->
     Merge.key_notnull k = true) /\
  (forall l1 l2 r,
     df_cobertura = l1 ++ r :: l2 -> Merge.key_notnull (Merge.cobertura_key r) = false ->
     Merge.cobertura_grouped mean_count df_cobertura =
       Merge.cobertura_grouped mean_count (l1 ++ l2) /\
     Merge.merge_datasets mean_count mean sum df_cobertura df_accesos =
       Merge.merge_datasets mean_count mean sum (l1 ++ l2) df_accesos) /\
  (forall l1 l2 r,
     df_accesos = l1 ++ r :: l2 -> Merge.key_notnull (Merge.accesos_key r) = false ->
     Merge.accesos_grouped mean sum df_accesos =
       Merge.accesos_grouped mean sum (l1 ++ l2) /\
     Merge.merge_datasets mean_count mean sum df_cobertura df_accesos =
       Merge.merge_datasets mean_count mean sum df_cobertura (l1 ++ l2)).
Proof.
  assert (Hc : forall k, k ∈ map fst (Merge.cobertura_grouped mean_count df_cobertura) ->
                 Merge.key_notnull k = true).
  { intros k. rewrite cobertura_grouped_keys, groupby_key_elem_of. tauto. }
  split; [apply key_notnull_spec |].
  split; [exact Hc |].
  split; [intros k; rewrite accesos_grouped_keys, groupby_key_elem_of; tauto |].
  split; [| split].
  - intros k Hk. apply Hc.
    by apply (merge_datasets_key_elem_of mean_count mean sum df_cobertura df_accesos).
  - intros l1 l2 r -> Hr.
    assert (Heq : Merge.cobertura_grouped mean_count (l1 ++ r :: l2) =
                  Merge.cobertura_grouped mean_count (l1 ++ l2)).
    { unfold Merge.cobertura_grouped. by rewrite groupby_skips_null. }
    split; [exact Heq |]. unfold Merge.merge_datasets. by rewrite Heq.
  - intros l1 l2 r -> Hr.
    assert (Heq : Merge.accesos_grouped mean sum (l1 ++ r :: l2) =
                  Merge.accesos_grouped mean sum (l1 ++ l2)).
    { unfold Merge.accesos_grouped. by rewrite groupby_skips_null. }
    split; [exact Heq |]. unfold Merge.merge_datasets. by rewrite Heq.
Qed.

(** The sample coverage row without a provider is the last of the normalized
    table; the grouping and the merged table are those of the three rows
    before it. *)
Lemma C10_join_key_never_missing_witness :
  Merge.key_notnull
    (Merge.cobertura_key (Cobertura.transform_row Sample.cobertura_sin_proveedor)) = false /\
  Merge.cobertura_grouped Exact.mean_count Sample.df_cobertura =
    Merge.cobertura_grouped Exact.mean_count
      (map Cobertura.transform_row
         [Sample.cobertura_medellin; Sample.cobertura_santa_elena; Sample.cobertura_bello]
       ++ []) /\
  Merge.merge_datasets Exact.mean_count Exact.mean Exact.sum Sample.df_cobertura Sample.df_accesos =
    Merge.merge_datasets Exact.mean_count Exact.mean Exact.sum
      (map Cobertura.transform_row
         [Sample.cobertura_medellin; Sample.cobertura_santa_elena; Sample.cobertura_bello]
       ++ [])
      Sample.df_accesos.
Proof.
  split; [reflexivity |].
  apply (proj1 (proj2 (proj2 (proj2 (proj2
           (C10_join_key_never_missing Exact.mean_count Exact.mean Exact.sum
              Sample.df_cobertura Sample.df_accesos)))))
         _ _ (Cobertura.transform_row Sample.cobertura_sin_proveedor)).
  - vm_compute. reflexivity.
  - reflexivity.
Defined.

(** * Further properties of the pipeline *)

(** ** The drop, once more *)

Section DropAgain.
Context {A : Type}.
Implicit Types (df : Frame.DataFrame A) (labels : list string).

Lemma drop_ok_inv labels df df' :
  Frame.drop labels df = Ok df' ->
  (forall c, c ∈ labels -> c ∈ Frame.columns df) /\
  df' = List.filter (fun col => negb (Py.mem (fst col) labels)) df.
Proof.
  unfold Frame.drop. destruct (forallb _ labels) eqn:Hall; [| discriminate].
  intros [= <-]. split; [| reflexivity]. by apply all_present_iff.
Qed.
End DropAgain.

(** X1: when the drop of a normalizer succeeds, none of the listed labels is
    left among the columns, a column with another label is kept with its
    cells, and the same drop on the result raises [KeyError]: the step cannot
    be run twice. *)
Theorem X1_drop_result (A : Type) (labels : list string) (df df' : Frame.DataFrame A) :
  labels <> [] ->
  Frame.drop labels df = Ok df' ->
  (forall c, c ∈ labels -> c ∉ Frame.columns df') /\
  (forall col, col ∈ df' <-> col ∈ df /\ fst col ∉ labels) /\
  Frame.drop labels df' = Raise KeyError.
Proof.
  intros Hne Hok. apply drop_ok_inv in Hok as [Hall ->].
  assert (Hcols : forall c, c ∈ labels ->
            c ∉ Frame.columns (List.filter (fun col => negb (Py.mem (fst col) labels)) df)).
  { intros c Hc Hin. rewrite columns_filter in Hin.
    apply elem_of_filter_bool in Hin as [_ Hin].
    apply negb_true_iff, mem_false_not_elem_of in Hin. done. }
  split; [exact Hcols |]. split.
  - intros col. rewrite elem_of_filter_bool, negb_true_iff, mem_false_not_elem_of. tauto.
  - apply drop_raises_iff. destruct labels as [|c labels]; [done |].
    exists c. split; [by left | apply Hcols; by left].
Qed.

(** The complete sample file of the coverage. *)
Lemma X1_drop_result_witness :
  Frame.drop Cobertura.cols_to_drop
    (List.filter (fun col => negb (Py.mem (fst col) Cobertura.cols_to_drop))
       Sample.cobertura_frame_full) = Raise KeyError.
Proof.
  apply (X1_drop_result string Cobertura.cols_to_drop Sample.cobertura_frame_full);
    [discriminate | reflexivity].
Defined.

(** ** The labels of the columns *)

Section LabelFacts.
Context {A : Type}.
Variables str_strip str_lower : string -> string.
Implicit Types (df : Frame.DataFrame A).

Lemma rename_if_present_rename (old new : string) df :
  Labels.rename_if_present old new df = Labels.rename old new df.
Proof.
  unfold Labels.rename_if_present.
  destruct (Py.mem old (Frame.columns df)) eqn:Hmem; [reflexivity |].
  apply mem_false_not_elem_of in Hmem. unfold Labels.rename.
  induction df as [|[c cells] df IH]; [reflexivity |].
  cbn [map fst snd]. cbn [Frame.columns map fst] in Hmem.
  apply not_elem_of_cons in Hmem as [Hc Hmem].
  rewrite <- IH by exact Hmem.
  destruct (String.eqb c old) eqn:Heq; [| reflexivity].
  apply String.eqb_eq in Heq. congruence.
Qed.

Lemma cobertura_labels_map df :
  Labels.cobertura_labels str_strip str_lower df =
  map (fun col => (Labels.cobertura_label str_strip str_lower (fst col), snd col)) df.
Proof.
  unfold Labels.cobertura_labels. rewrite !rename_if_present_rename.
  unfold Labels.rename, Labels.clean_columns. rewrite !map_map.
  apply map_ext. intros [c cells]. cbn [fst snd]. unfold Labels.cobertura_label.
  destruct (String.eqb (Labels.clean_label str_strip str_lower c) "cobertuta_4g");
    reflexivity.
Qed.

Lemma accesos_labels_map df :
  Labels.accesos_labels str_strip str_lower df =
  map (fun col => (Labels.accesos_label str_strip str_lower (fst col), snd col)) df.
Proof.
  unfold Labels.accesos_labels. rewrite rename_if_present_rename.
  unfold Labels.rename, Labels.clean_columns. rewrite !map_map.
  apply map_ext. by intros [c cells].
Qed.

Lemma replace_space_no_space (s : string) :
  Py.contains " " (Py.replace " " "_" s) = false.
Proof.
  unfold Py.replace. induction s as [|a s IH]; [reflexivity |].
  cbn [Py.map_chars Py.contains String.prefix]. rewrite IH.
  destruct (Ascii.eqb a " ") eqn:Ha.
  - destruct (ascii_dec " " "_"); [discriminate | reflexivity].
  - destruct (ascii_dec " " a) as [<- | _]; [| reflexivity].
    by rewrite Ascii.eqb_refl in Ha.
Qed.
End LabelFacts.

(** X2: whatever [str.strip] and [str.lower] do, the steps on the labels of
    the two tables (cleaning, then the guarded renames) leave the cells, the
    number and the order of the columns as they are; each column ends with
    the label that its own label gives, so the guards play no part; and no
    column is left with a space in its label or with the label ['año'], nor,
    in the coverage table, with the label ['cobertuta_4g']. *)
Theorem X2_labels_of_the_columns
    (A : Type) (str_strip str_lower : string -> string) (df : Frame.DataFrame A) :
  let dc := Labels.cobertura_labels str_strip str_lower df in
  let da := Labels.accesos_labels str_strip str_lower df in
  (map snd dc = map snd df /\
   Frame.columns dc = map (Labels.cobertura_label str_strip str_lower) (Frame.columns df) /\
   (forall c, c ∈ Frame.columns dc ->
      Py.contains " " c = false /\ c <> "cobertuta_4g" /\ c <> "año")) /\
  (map snd da = map snd df /\
   Frame.columns da = map (Labels.accesos_label str_strip str_lower) (Frame.columns df) /\
   (forall c, c ∈ Frame.columns da -> Py.contains " " c = false /\ c <> "año")).
Proof.
  intros dc da. subst dc da. rewrite cobertura_labels_map, accesos_labels_map.
  unfold Frame.columns. rewrite !map_map. cbn [fst snd].
  split; (split; [reflexivity |]; split; [reflexivity |]).
  - intros c Hc. apply elem_of_map in Hc as ([c0 cells] & -> & _). cbn [fst].
    unfold Labels.cobertura_label.
    destruct (String.eqb _ "cobertuta_4g") eqn:H1; [by repeat split |].
    destruct (String.eqb _ "año") eqn:H2; [by repeat split |].
    apply String.eqb_neq in H1, H2.
    split; [apply replace_space_no_space | by split].
  - intros c Hc. apply elem_of_map in Hc as ([c0 cells] & -> & _). cbn [fst].
    unfold Labels.accesos_label.
    destruct (String.eqb _ "año") eqn:H2; [by repeat split |].
    apply String.eqb_neq in H2.
    split; [apply replace_space_no_space | done].
Qed.

(** ** The order of the keys *)

Lemma string_compare_refl (s : string) : String.compare s s = Eq.
Proof.
  induction s as [|a s IH]; [reflexivity |]. simpl.
  unfold Ascii.compare. by rewrite N.compare_refl.
Qed.

Lemma string_compare_lt_le (s1 s2 : string) :
  String.compare s1 s2 = Lt -> String.le s1 s2.
Proof. intros H. unfold String.le, String.leb. by rewrite H. Qed.

Lemma string_compare_lt_trans (s1 s2 s3 : string) :
  String.compare s1 s2 = Lt -> String.compare s2 s3 = Lt -> String.compare s1 s3 = Lt.
Proof.
  intros H12 H23.
  assert (L13 : String.le s1 s3).
  { transitivity s2; by apply string_compare_lt_le. }
  unfold String.le, String.leb in L13.
  destruct (String.compare s1 s3) eqn:H13; [| reflexivity | done].
  apply String.compare_eq_iff in H13. subst s3.
  assert (s1 = s2) as ->.
  { apply (anti_symm String.le); by apply string_compare_lt_le. }
  by rewrite string_compare_refl in H12.
Qed.

Lemma Z_compare_lt_trans (x y z : Z) :
  (x ?= y) = Lt -> (y ?= z) = Lt -> (x ?= z) = Lt.
Proof. rewrite !Z.compare_lt_iff. lia. Qed.

Section CompareCell.
Context {A : Type} (cmp : A -> A -> comparison).
Hypothesis cmp_eq : forall a b, cmp a b = Eq -> a = b.
Hypothesis cmp_refl : forall a, cmp a a = Eq.
Hypothesis cmp_trans : forall a b c, cmp a b = Lt -> cmp b c = Lt -> cmp a c = Lt.

Lemma compare_cell_eq (x y : option A) : Merge.compare_cell cmp x y = Eq -> x = y.
Proof. destruct x, y; simpl; try done. intros H. f_equal. by apply cmp_eq. Qed.

Lemma compare_cell_refl (x : option A) : Merge.compare_cell cmp x x = Eq.
Proof. destruct x; simpl; auto. Qed.

Lemma compare_cell_trans (x y z : option A) :
  Merge.compare_cell cmp x y = Lt -> Merge.compare_cell cmp y z = Lt ->
  Merge.compare_cell cmp x z = Lt.
Proof. destruct x, y, z; simpl; try done. apply cmp_trans. Qed.
End CompareCell.

(** One step of a lexicographic comparison. *)
Lemma lex_lt_trans (c12 c23 c13 r12 r23 r13 : comparison) :
  (c12 = Lt -> c23 = Lt -> c13 = Lt) ->
  (c12 = Eq -> c13 = c23) ->
  (c23 = Eq -> c13 = c12) ->
  (r12 = Lt -> r23 = Lt -> r13 = Lt) ->
  Merge.lex c12 r12 = Lt -> Merge.lex c23 r23 = Lt -> Merge.lex c13 r13 = Lt.
Proof.
  intros Ht He1 He2 Hr.
  destruct c12, c23; simpl; intros H1 H2; try discriminate.
  - rewrite (He1 eq_refl). simpl. auto.
  - by rewrite (He1 eq_refl).
  - by rewrite (He2 eq_refl).
  - by rewrite (Ht eq_refl eq_refl).
Qed.

Lemma key_compare_eq (k1 k2 : Merge.JoinKey) : Merge.key_compare k1 k2 = Eq -> k1 = k2.
Proof.
  destruct k1 as [[[[a1 t1] d1] m1] p1], k2 as [[[[a2 t2] d2] m2] p2].
  unfold Merge.key_compare, Merge.lex.
  destruct (Merge.compare_cell Z.compare a1 a2) eqn:Ha; try discriminate.
  destruct (Merge.compare_cell Z.compare t1 t2) eqn:Ht; try discriminate.
  destruct (Merge.compare_cell String.compare d1 d2) eqn:Hd; try discriminate.
  destruct (Merge.compare_cell String.compare m1 m2) eqn:Hm; try discriminate.
  intros Hp.
  apply (compare_cell_eq _ Z.compare_eq) in Ha, Ht.
  apply (compare_cell_eq _ String.compare_eq_iff) in Hd, Hm, Hp.
  congruence.
Qed.

Lemma key_compare_refl (k : Merge.JoinKey) : Merge.key_compare k k = Eq.
Proof.
  destruct k as [[[[a t] d] m] p]. unfold Merge.key_compare.
  rewrite !(compare_cell_refl _ Z.compare_refl).
  by rewrite !(compare_cell_refl _ string_compare_refl).
Qed.

Lemma key_compare_lt_trans (k1 k2 k3 : Merge.JoinKey) :
  Merge.key_compare k1 k2 = Lt -> Merge.key_compare k2 k3 = Lt ->
  Merge.key_compare k1 k3 = Lt.
Proof.
  destruct k1 as [[[[a1 t1] d1] m1] p1], k2 as [[[[a2 t2] d2] m2] p2],
    k3 as [[[[a3 t3] d3] m3] p3].
  unfold Merge.key_compare.
  assert (HZ : forall x y z : option Z,
            (Merge.compare_cell Z.compare x y = Lt -> Merge.compare_cell Z.compare y z = Lt ->
             Merge.compare_cell Z.compare x z = Lt) /\
            (Merge.compare_cell Z.compare x y = Eq ->
             Merge.compare_cell Z.compare x z = Merge.compare_cell Z.compare y z) /\
            (Merge.compare_cell Z.compare y z = Eq ->
             Merge.compare_cell Z.compare x z = Merge.compare_cell Z.compare x y)).
  { intros x y z. split; [apply (compare_cell_trans _ Z_compare_lt_trans) |].
    split; intros H; apply (compare_cell_eq _ Z.compare_eq) in H; by subst. }
  assert (HS : forall x y z : option string,
            (Merge.compare_cell String.compare x y = Lt ->
             Merge.compare_cell String.compare y z = Lt ->
             Merge.compare_cell String.compare x z = Lt) /\
            (Merge.compare_cell String.compare x y = Eq ->
             Merge.compare_cell String.compare x z = Merge.compare_cell String.compare y z) /\
            (Merge.compare_cell String.compare y z = Eq ->
             Merge.compare_cell String.compare x z = Merge.compare_cell String.compare x y)).
  { intros x y z. split; [apply (compare_cell_trans _ string_compare_lt_trans) |].
    split; intros H;
      apply (compare_cell_eq _ String.compare_eq_iff) in H;
      by subst. }
  apply lex_lt_trans; try apply HZ.
  apply lex_lt_trans; try apply HZ.
  apply lex_lt_trans; try apply HS.
  apply lex_lt_trans; apply HS.
Qed.

Lemma key_le_cases (k1 k2 : Merge.JoinKey) :
  Merge.key_le k1 k2 <-> Aux.key_lt k1 k2 \/ k1 = k2.
Proof.
  unfold Merge.key_le, Aux.key_lt. split.
  - destruct (Merge.key_compare k1 k2) eqn:H; [| by left | done].
    right. by apply key_compare_eq.
  - intros [-> | ->]; [done |]. by rewrite key_compare_refl.
Qed.

Lemma key_lt_irrefl (k : Merge.JoinKey) : ~ Aux.key_lt k k.
Proof. unfold Aux.key_lt. by rewrite key_compare_refl. Qed.

#[global] Instance key_lt_trans : Transitive Aux.key_lt.
Proof. intros k1 k2 k3. apply key_compare_lt_trans. Qed.

#[global] Instance key_le_trans : Transitive Merge.key_le.
Proof.
  intros k1 k2 k3. rewrite !key_le_cases.
  intros [H12 | ->] [H23 | ->]; auto. left. by transitivity k2.
Qed.

#[global] Instance key_le_antisym : AntiSymm (=) Merge.key_le.
Proof.
  intros k1 k2. rewrite !key_le_cases. intros [H12 | ->] [H21 | H]; auto.
  destruct (key_lt_irrefl k1). by transitivity k2.
Qed.

Lemma StronglySorted_strict (l : list Merge.JoinKey) :
  StronglySorted Merge.key_le l -> NoDup l -> StronglySorted Aux.key_lt l.
Proof.
  induction 1 as [|k l Hl IH Hk]; intros Hnd; [constructor |].
  apply NoDup_cons in Hnd as [Hnot Hnd]. constructor; [by apply IH |].
  rewrite Forall_forall in Hk |- *. intros k' Hk'.
  destruct (proj1 (key_le_cases k k') (Hk k' Hk')) as [Hlt | ->]; [done |].
  by destruct Hnot.
Qed.

Lemma StronglySorted_filter_bool {A} (R : relation A) (f : A -> bool) (l : list A) :
  StronglySorted R l -> StronglySorted R (List.filter f l).
Proof.
  induction 1 as [|x l Hl IH Hx]; simpl; [constructor |].
  destruct (f x); [| exact IH]. constructor; [exact IH |].
  rewrite Forall_forall in Hx |- *. intros y Hy. apply Hx.
  apply elem_of_filter_bool in Hy. tauto.
Qed.

Section GroupbyMore.
Context {A : Type} (key : A -> Merge.JoinKey).
Implicit Types (rows g : list A) (k : Merge.JoinKey).

Lemma groupby_keys_strictly_sorted rows :
  StronglySorted Aux.key_lt (map fst (Merge.groupby key rows)).
Proof.
  apply StronglySorted_strict; [| apply groupby_keys_NoDup].
  apply Sorted_StronglySorted; [apply _ | apply groupby_keys_sorted].
Qed.

Lemma rows_of_elem_of rows k (r : A) :
  r ∈ Merge.rows_of key k rows <-> r ∈ rows /\ key r = k.
Proof.
  unfold Merge.rows_of. by rewrite elem_of_filter_bool, bool_decide_eq_true.
Qed.

Lemma rows_of_nonempty rows k :
  Merge.rows_of key k rows <> [] <-> exists r, r ∈ rows /\ key r = k.
Proof.
  split.
  - destruct (Merge.rows_of key k rows) as [|r g] eqn:Hg; [done |]. intros _.
    exists r. apply rows_of_elem_of. rewrite Hg. by left.
  - intros (r & Hr) Hnil. apply rows_of_elem_of in Hr. rewrite Hnil in Hr.
    by apply elem_of_nil in Hr.
Qed.

(** The groups of a table: one for every key without a missing cell that
    some row has, holding the rows with that key. *)
Lemma groupby_elem_of_iff rows k g :
  (k, g) ∈ Merge.groupby key rows <->
  Merge.key_notnull k = true /\ g = Merge.rows_of key k rows /\ g <> [].
Proof.
  split.
  - intros Hin. destruct (groupby_elem_of key rows k g Hin) as (Hk & -> & Hr).
    split; [done |]. split; [done |]. by apply rows_of_nonempty.
  - intros (Hk & -> & Hne). apply rows_of_nonempty in Hne.
    assert (Hin : k ∈ map fst (Merge.groupby key rows)) by by apply groupby_key_elem_of.
    apply elem_of_map in Hin as ([k' g'] & -> & Hin). cbn [fst].
    by destruct (groupby_elem_of key rows k' g' Hin) as (_ & <- & _).
Qed.

Lemma drop_duplicates_from_length {B} `{EqDecision B} (seen l : list B) :
  (length (Frame.drop_duplicates_from seen l) <= length l)%nat.
Proof.
  revert seen. induction l as [|x l IH]; intros seen; simpl; [lia |].
  destruct (decide (x ∈ seen)).
  - specialize (IH seen). lia.
  - simpl. specialize (IH (x :: seen)). lia.
Qed.

Lemma groupby_length rows : (length (Merge.groupby key rows) <= length rows)%nat.
Proof.
  rewrite <- (length_map fst), groupby_keys.
  rewrite (Permutation_length (merge_sort_Permutation _ _)).
  etrans; [apply drop_duplicates_from_length |].
  rewrite length_map. apply List.filter_length_le.
Qed.
End GroupbyMore.

(** Each key of a list without repetition stands for its own rows: the
    groups taken together are the rows whose key is in the list. *)
Lemma groups_concat {A} (key : A -> Merge.JoinKey) (ks : list Merge.JoinKey) (l : list A) :
  NoDup ks ->
  concat (map (fun k => Merge.rows_of key k l) ks) ≡ₚ
  List.filter (fun r => bool_decide (key r ∈ ks)) l.
Proof.
  induction 1 as [|k ks Hk Hks IH]; cbn [map concat].
  - induction l as [|r l IHl]; [done |]. cbn [List.filter].
    rewrite bool_decide_false by apply not_elem_of_nil. exact IHl.
  - rewrite IH. clear IH. unfold Merge.rows_of.
    induction l as [|r l IHl]; [done |]. cbn [List.filter].
    destruct (decide (key r = k)) as [Heq | Hne].
    + rewrite (bool_decide_true (key r = k)) by done.
      rewrite (bool_decide_false (key r ∈ ks)) by (by rewrite Heq).
      rewrite (bool_decide_true (key r ∈ k :: ks)) by (rewrite Heq; by left).
      cbn [app]. by rewrite IHl.
    + rewrite (bool_decide_false (key r = k)) by done.
      destruct (decide (key r ∈ ks)) as [Hin | Hnin].
      * rewrite (bool_decide_true (key r ∈ ks)) by done.
        rewrite (bool_decide_true (key r ∈ k :: ks)) by (by right).
        rewrite <- IHl. by rewrite Permutation_middle.
      * rewrite (bool_decide_false (key r ∈ ks)) by done.
        rewrite (bool_decide_false (key r ∈ k :: ks)); [exact IHl |].
        rewrite elem_of_cons. tauto.
Qed.

Lemma filter_bool_all {A} (f : A -> bool) (l : list A) :
  (forall x, x ∈ l -> f x = true) -> List.filter f l = l.
Proof.
  induction l as [|x l IH]; intros H; simpl; [reflexivity |].
  rewrite (H x) by by left. f_equal. apply IH. intros y Hy. apply H. by right.
Qed.

(** X3: grouping loses no row whose key is complete and invents none: the
    groups of a table, put end to end, are the rows without a missing key
    cell in some order; no group is empty; the rows of a group are the rows
    of the table with the key of the group, in the order of the table. *)
Theorem X3_groups_partition_the_rows
    (A : Type) (key : A -> Merge.JoinKey) (rows : list A) :
  concat (map snd (Merge.groupby key rows)) ≡ₚ
    List.filter (fun r => Merge.key_notnull (key r)) rows /\
  (forall k g, (k, g) ∈ Merge.groupby key rows ->
     g <> [] /\ g = List.filter (fun r => bool_decide (key r = k)) rows).
Proof.
  split.
  - unfold Merge.groupby. rewrite map_map. cbn [snd].
    rewrite groups_concat.
    + apply reflexive_eq, filter_bool_all. intros r Hr.
      apply bool_decide_eq_true.
      rewrite merge_sort_Permutation, drop_duplicates_elem_of, elem_of_map. eauto.
    + rewrite merge_sort_Permutation. apply drop_duplicates_NoDup.
  - intros k g Hin. apply groupby_elem_of_iff in Hin as (_ & -> & Hne). done.
Qed.

(** X4: the grouped coverage table, the grouped access table and the merged
    table each list their keys in strictly ascending order (by year, then
    quarter, department, municipality and provider), so no key comes twice
    and the order of the rows does not depend on the order of the input. *)
Theorem X4_keys_strictly_ascending
    (mean_count : list Z -> Accesos.pyfloat)
    (mean sum : list Accesos.pyfloat -> Accesos.pyfloat)
    (df_cobertura : list Cobertura.row) (df_accesos : list Accesos.row) :
  StronglySorted Aux.key_lt (map fst (Merge.cobertura_grouped mean_count df_cobertura)) /\
  StronglySorted Aux.key_lt (map fst (Merge.accesos_grouped mean sum df_accesos)) /\
  StronglySorted Aux.key_lt
    (map Merge.merged_key
       (Merge.merge_datasets mean_count mean sum df_cobertura df_accesos)).
Proof.
  assert (Hc : StronglySorted Aux.key_lt
                 (map fst (Merge.cobertura_grouped mean_count df_cobertura))).
  { rewrite cobertura_grouped_keys. apply groupby_keys_strictly_sorted. }
  split; [exact Hc |]. split.
  - rewrite accesos_grouped_keys. apply groupby_keys_strictly_sorted.
  - rewrite merge_datasets_keys. by apply StronglySorted_filter_bool.
Qed.

Section MergeContent.
Variable mean_count : list Z -> Accesos.pyfloat.
Variables mean sum : list Accesos.pyfloat -> Accesos.pyfloat.

Lemma cobertura_grouped_elem_of_iff df k b :
  (k, b) ∈ Merge.cobertura_grouped mean_count df <->
  Merge.key_notnull k = true /\
  Merge.rows_of Merge.cobertura_key k df <> [] /\
  b = Merge.agg_cobertura mean_count (Merge.rows_of Merge.cobertura_key k df).
Proof.
  unfold Merge.cobertura_grouped. rewrite elem_of_map. split.
  - intros ([k' g] & [= -> ->] & Hin). cbn [fst snd].
    apply groupby_elem_of_iff in Hin as (Hk & -> & Hne). done.
  - intros (Hk & Hne & ->). exists (k, Merge.rows_of Merge.cobertura_key k df).
    split; [reflexivity |]. by apply groupby_elem_of_iff.
Qed.

Lemma accesos_grouped_elem_of_iff df k c :
  (k, c) ∈ Merge.accesos_grouped mean sum df <->
  Merge.key_notnull k = true /\
  Merge.rows_of Merge.accesos_key k df <> [] /\
  c = Merge.agg_accesos mean sum (Merge.rows_of Merge.accesos_key k df).
Proof.
  unfold Merge.accesos_grouped. rewrite elem_of_map. split.
  - intros ([k' g] & [= -> ->] & Hin). cbn [fst snd].
    apply groupby_elem_of_iff in Hin as (Hk & -> & Hne). done.
  - intros (Hk & Hne & ->). exists (k, Merge.rows_of Merge.accesos_key k df).
    split; [reflexivity |]. by apply groupby_elem_of_iff.
Qed.
End MergeContent.

(** X5: the rows of the merged table, read off the two normalized tables: a
    key has a row exactly when none of its cells is missing and both tables
    have a row with it, and that row holds the reductions of all the coverage
    rows and of all the access rows with that key. *)
Theorem X5_merged_row_content
    (mean_count : list Z -> Accesos.pyfloat)
    (mean sum : list Accesos.pyfloat -> Accesos.pyfloat)
    (df_cobertura : list Cobertura.row) (df_accesos : list Accesos.row)
    (k : Merge.JoinKey) (b : Merge.CoberturaGrouped.row) (c : Merge.AccesosGrouped.row) :
  (k, b, c) ∈ Merge.merge_datasets mean_count mean sum df_cobertura df_accesos <->
  Merge.key_notnull k = true /\
  (exists r, r ∈ df_cobertura /\ Merge.cobertura_key r = k) /\
  (exists r, r ∈ df_accesos /\ Merge.accesos_key r = k) /\
  b = Merge.agg_cobertura mean_count
        (List.filter (fun r => bool_decide (Merge.cobertura_key r = k)) df_cobertura) /\
  c = Merge.agg_accesos mean sum
        (List.filter (fun r => bool_decide (Merge.accesos_key r = k)) df_accesos).
Proof.
  unfold Merge.merge_datasets.
  rewrite merge_inner_elem_of, cobertura_grouped_elem_of_iff, accesos_grouped_elem_of_iff.
  rewrite !rows_of_nonempty. unfold Merge.rows_of. tauto.
Qed.

(** X6: grouping and merging never add rows: each grouping has at most as
    many rows as the table it groups, and the merged table at most as many
    as either grouping; so an empty table on either side gives an empty
    merged table. *)
Theorem X6_row_counts
    (mean_count : list Z -> Accesos.pyfloat)
    (mean sum : list Accesos.pyfloat -> Accesos.pyfloat)
    (df_cobertura : list Cobertura.row) (df_accesos : list Accesos.row) :
  let cg := Merge.cobertura_grouped mean_count df_cobertura in
  let ag := Merge.accesos_grouped mean sum df_accesos in
  let out := Merge.merge_datasets mean_count mean sum df_cobertura df_accesos in
  (length cg <= length df_cobertura)%nat /\
  (length ag <= length df_accesos)%nat /\
  (length out <= length cg)%nat /\
  (length out <= length ag)%nat /\
  (df_cobertura = [] \/ df_accesos = [] -> out = []).
Proof.
  intros cg ag out.
  assert (H1 : (length cg <= length df_cobertura)%nat).
  { subst cg. unfold Merge.cobertura_grouped. rewrite length_map. apply groupby_length. }
  assert (H2 : (length ag <= length df_accesos)%nat).
  { subst ag. unfold Merge.accesos_grouped. rewrite length_map. apply groupby_length. }
  assert (H3 : (length out <= length cg)%nat).
  { rewrite <- (length_map Merge.merged_key out). subst out.
    rewrite merge_datasets_keys. etrans; [apply List.filter_length_le |].
    by rewrite length_map. }
  assert (H4 : (length out <= length ag)%nat).
  { rewrite <- (length_map Merge.merged_key out), <- (length_map fst ag).
    apply submseteq_length, NoDup_submseteq.
    - subst out. rewrite merge_datasets_keys.
      apply NoDup_filter_bool, cobertura_grouped_keys_NoDup.
    - intros k Hk. subst out. by apply merge_datasets_key_elem_of in Hk as [_ Hk]. }
  repeat split; try done.
  intros [Heq | Heq]; apply length_zero_iff_nil.
  - assert (length df_cobertura = 0%nat) by (by rewrite Heq). lia.
  - assert (length df_accesos = 0%nat) by (by rewrite Heq). lia.
Qed.

(** ** The coverage normalizer, once more *)

Section DropDuplicatesMore.
Context {A : Type} `{EqDecision A}.
Implicit Types (l seen : list A).

Lemma drop_duplicates_from_sublist seen l :
  Frame.drop_duplicates_from seen l `sublist_of` l.
Proof.
  revert seen. induction l as [|x l IH]; intros seen; simpl; [constructor |].
  destruct (decide (x ∈ seen)); [by apply sublist_cons | by apply sublist_skip].
Qed.

Lemma drop_duplicates_from_id seen l :
  NoDup l -> (forall x, x ∈ l -> x ∉ seen) -> Frame.drop_duplicates_from seen l = l.
Proof.
  intros Hnd. revert seen. induction Hnd as [|x l Hx Hnd IH]; intros seen Hseen; simpl.
  - reflexivity.
  - rewrite decide_False by (apply Hseen; by left). f_equal.
    apply IH. intros y Hy. rewrite not_elem_of_cons. split.
    + intros ->. done.
    + apply Hseen. by right.
Qed.

Lemma drop_duplicates_id l : NoDup l -> Frame.drop_duplicates l = l.
Proof.
  intros Hnd. apply drop_duplicates_from_id; [done |].
  intros x _. apply not_elem_of_nil.
Qed.
End DropDuplicatesMore.

Lemma drop_duplicates_from_snoc {A} `{EqDecision A} (seen l : list A) (x : A) :
  Frame.drop_duplicates_from seen (l ++ [x]) =
  Frame.drop_duplicates_from seen l ++
    (if decide (x ∈ seen \/ x ∈ l) then [] else [x]).
Proof.
  revert seen. induction l as [|y l IH]; intros seen.
  - cbn [app Frame.drop_duplicates_from].
    rewrite (decide_ext (x ∈ seen \/ x ∈ []) (x ∈ seen)) by (rewrite elem_of_nil; tauto).
    by destruct (decide (x ∈ seen)).
  - cbn [app Frame.drop_duplicates_from]. destruct (decide (y ∈ seen)) as [Hy | Hy].
    + rewrite IH. f_equal. apply decide_ext. rewrite elem_of_cons.
      split; [tauto |]. intros [? | [-> | ?]]; tauto.
    + rewrite IH. cbn [app]. do 2 f_equal. apply decide_ext.
      rewrite !elem_of_cons. tauto.
Qed.

Lemma drop_duplicates_snoc {A} `{EqDecision A} (l : list A) (x : A) :
  Frame.drop_duplicates (l ++ [x]) =
  if decide (x ∈ Frame.drop_duplicates l) then Frame.drop_duplicates l
  else Frame.drop_duplicates l ++ [x].
Proof.
  unfold Frame.drop_duplicates at 1. rewrite drop_duplicates_from_snoc.
  fold (Frame.drop_duplicates l).
  rewrite (decide_ext (x ∈ [] \/ x ∈ l) (x ∈ Frame.drop_duplicates l))
    by (rewrite drop_duplicates_elem_of, elem_of_nil; tauto).
  destruct (decide (x ∈ Frame.drop_duplicates l)); [apply app_nil_r | reflexivity].
Qed.

(** X7: the normalized coverage table has no two equal rows and holds
    exactly the normalized forms of the rows of the table, each where it
    first appears: the table of no row is empty, a further row whose
    normalized form is already in the table changes nothing, and one whose
    normalized form is new is added at the end.  So the table is a
    sub-sequence of the normalized rows, has at most as many rows as the
    input, is the list of the normalized rows when these are all different,
    and removing the duplicates again changes nothing. *)
Theorem X7_cobertura_rows_are_distinct (raws : list Cobertura.Raw.row) :
  let out := Cobertura.transform_cobertura_movil raws in
  NoDup out /\
  (forall r, r ∈ out <-> exists raw, raw ∈ raws /\ r = Cobertura.transform_row raw) /\
  Cobertura.transform_cobertura_movil [] = [] /\
  (forall raw,
     Cobertura.transform_cobertura_movil (raws ++ [raw]) =
       if decide (Cobertura.transform_row raw ∈ out) then out
       else out ++ [Cobertura.transform_row raw]) /\
  out `sublist_of` map Cobertura.transform_row raws /\
  (length out <= length raws)%nat /\
  (NoDup (map Cobertura.transform_row raws) -> out = map Cobertura.transform_row raws) /\
  Frame.drop_duplicates out = out.
Proof.
  intros out. subst out. unfold Cobertura.transform_cobertura_movil.
  split; [apply drop_duplicates_NoDup |]. split.
  - intros r. rewrite drop_duplicates_elem_of, elem_of_map.
    split; intros (raw & H1 & H2); exists raw; by split.
  - split; [reflexivity |]. split.
    + intros raw. rewrite map_app. cbn [map]. apply drop_duplicates_snoc.
    + split; [apply drop_duplicates_from_sublist |]. split.
      * etrans; [apply drop_duplicates_from_length |]. by rewrite length_map.
      * split; [apply drop_duplicates_id |].
        apply drop_duplicates_id, drop_duplicates_NoDup.
Qed.

(** The sample table: the third row repeats the first and is left out where
    it comes, the first row staying in its place. *)
Example cobertura_keeps_the_first_of_equal_rows :
  Cobertura.transform_cobertura_movil
    [Sample.cobertura_medellin; Sample.cobertura_santa_elena; Sample.cobertura_medellin] =
  [Cobertura.transform_row Sample.cobertura_medellin;
   Cobertura.transform_row Sample.cobertura_santa_elena].
Proof. vm_compute. reflexivity. Qed.

(** X8: in every row of the normalized coverage table the two derived
    fields agree: when [tiene_4g_o_mas] is true the row counts at least one
    technology; when it is false the row counts at most three (2G, 3G and
    HSPA+); and a row that counts six has [tiene_4g_o_mas] true. *)
Theorem X8_derived_fields_agree (raws : list Cobertura.Raw.row) (r : Cobertura.row) :
  r ∈ Cobertura.transform_cobertura_movil raws ->
  (Cobertura.tiene_4g_o_mas r = Some true -> 1 <= Cobertura.total_tecnologias r) /\
  (Cobertura.tiene_4g_o_mas r = Some false -> Cobertura.total_tecnologias r <= 3) /\
  (Cobertura.total_tecnologias r = 6 -> Cobertura.tiene_4g_o_mas r = Some true) /\
  (Cobertura.total_tecnologias r = 0 -> Cobertura.tiene_4g_o_mas r <> Some true).
Proof.
  intros Hr. apply transform_cobertura_movil_row in Hr as (raw & -> & _).
  cbn [Cobertura.transform_row Cobertura.tiene_4g_o_mas Cobertura.total_tecnologias].
  destruct (Cobertura.coerce_marker (Cobertura.Raw.cobertura_2g raw)) as [[|]|];
    destruct (Cobertura.coerce_marker (Cobertura.Raw.cobertura_3g raw)) as [[|]|];
    destruct (Cobertura.coerce_marker (Cobertura.Raw.cobertura_4g raw)) as [[|]|];
    destruct (Cobertura.coerce_marker (Cobertura.Raw.cobertura_5g raw)) as [[|]|];
    destruct (Cobertura.coerce_marker (Cobertura.Raw.cobertura_lte raw)) as [[|]|];
    destruct (Cobertura.coerce_marker (Cobertura.Raw.cobertura_hspa raw)) as [[|]|];
    cbn; repeat split; intros; try discriminate; try lia.
Qed.

(** The first sample row has 4G and counts three technologies. *)
Lemma X8_derived_fields_agree_witness :
  1 <= Cobertura.total_tecnologias (Cobertura.transform_row Sample.cobertura_medellin).
Proof.
  apply (X8_derived_fields_agree Sample.cobertura_raw); [by_evaluation |].
  by vm_compute.
Defined.

Lemma any_skipna_kleene (g : list Cobertura.row) :
  (forall r, r ∈ g ->
     Cobertura.tiene_4g_o_mas r =
       Cobertura.kleene_or
         (Cobertura.kleene_or (Cobertura.cobertura_4g r) (Cobertura.cobertura_lte r))
         (Cobertura.cobertura_5g r)) ->
  Merge.any_skipna (map Cobertura.tiene_4g_o_mas g) =
    Merge.any_skipna (map Cobertura.cobertura_4g g)
    || Merge.any_skipna (map Cobertura.cobertura_lte g)
    || Merge.any_skipna (map Cobertura.cobertura_5g g).
Proof.
  induction g as [|r g IH]; intros H; [reflexivity |].
  cbn [map Merge.any_skipna existsb].
  unfold Merge.any_skipna in IH. rewrite IH by (intros; apply H; by right).
  rewrite (H r) by by left.
  destruct (Cobertura.cobertura_4g r) as [[|]|], (Cobertura.cobertura_lte r) as [[|]|],
    (Cobertura.cobertura_5g r) as [[|]|]; cbn;
    repeat match goal with |- context [existsb ?f ?l] => destruct (existsb f l) end;
    reflexivity.
Qed.

(** X9: in the grouping of a normalized coverage table the field
    [tiene_4g_o_mas] of a group is the disjunction of its markers 4G, LTE
    and 5G: the reduction over the rows of the field derived row by row
    agrees with the derivation from the reduced markers, the missing values
    making no difference. *)
Theorem X9_grouped_tiene_4g_o_mas
    (mean_count : list Z -> Accesos.pyfloat)
    (raws : list Cobertura.Raw.row) (k : Merge.JoinKey) (g : Merge.CoberturaGrouped.row) :
  (k, g) ∈ Merge.cobertura_grouped mean_count (Cobertura.transform_cobertura_movil raws) ->
  Merge.CoberturaGrouped.tiene_4g_o_mas g =
    Merge.CoberturaGrouped.cobertura_4g g
    || Merge.CoberturaGrouped.cobertura_lte g
    || Merge.CoberturaGrouped.cobertura_5g g.
Proof.
  intros Hin. apply cobertura_grouped_elem_of in Hin as [_ ->].
  cbn [Merge.agg_cobertura Merge.CoberturaGrouped.tiene_4g_o_mas
    Merge.CoberturaGrouped.cobertura_4g Merge.CoberturaGrouped.cobertura_lte
    Merge.CoberturaGrouped.cobertura_5g].
  apply any_skipna_kleene. intros r Hr.
  apply rows_of_elem_of in Hr as [Hr _].
  apply transform_cobertura_movil_row in Hr as (raw & -> & _). reflexivity.
Qed.

(** The group of Medellin in the sample. *)
Lemma X9_grouped_tiene_4g_o_mas_witness :
  Merge.CoberturaGrouped.tiene_4g_o_mas Sample.g_medellin =
    Merge.CoberturaGrouped.cobertura_4g Sample.g_medellin
    || Merge.CoberturaGrouped.cobertura_lte Sample.g_medellin
    || Merge.CoberturaGrouped.cobertura_5g Sample.g_medellin.
Proof.
  apply (X9_grouped_tiene_4g_o_mas Exact.mean_count Sample.cobertura_raw Sample.k_medellin).
  by_evaluation.
Defined.

(** ** The texts of a group *)

Lemma sorted_set_eq (l1 l2 : list string) :
  (forall v, v ∈ l1 <-> v ∈ l2) ->
  merge_sort String.le (Frame.drop_duplicates l1) =
  merge_sort String.le (Frame.drop_duplicates l2).
Proof.
  intros H. apply (Sorted_unique String.le).
  - apply (Sorted_merge_sort _).
  - apply (Sorted_merge_sort _).
  - rewrite !merge_sort_Permutation.
    apply NoDup_Permutation; try apply drop_duplicates_NoDup.
    intros v. by rewrite !drop_duplicates_elem_of.
Qed.

Lemma omap_id_elem_of {A} (x : list (option A)) (v : A) : v ∈ omap id x <-> Some v ∈ x.
Proof.
  rewrite list_elem_of_omap. split.
  - intros (o & Ho & Hv). simpl in Hv. by subst o.
  - intros Hv. by exists (Some v).
Qed.

Lemma join_sorted_set_ext (x y : list (option string)) :
  (forall v, Some v ∈ x <-> Some v ∈ y) ->
  Merge.join_sorted_set x = Merge.join_sorted_set y.
Proof.
  intros H. unfold Merge.join_sorted_set. f_equal. apply sorted_set_eq.
  intros v. by rewrite !omap_id_elem_of.
Qed.

(** X10: the text that a group gets for its populated centres, for its
    technologies and for its classes depends only on which texts occur in
    the group: neither the order of the rows nor a repeated or missing value
    changes it.  A group in which the value is always missing gets the empty
    text. *)
Theorem X10_join_sorted_set_depends_on_the_set (x y : list (option string)) :
  (forall v, Some v ∈ x <-> Some v ∈ y) ->
  Merge.join_sorted_set x = Merge.join_sorted_set y /\
  ((forall v, Some v ∉ x) -> Merge.join_sorted_set x = "").
Proof.
  intros H. split; [by apply join_sorted_set_ext |].
  intros Hx. unfold Merge.join_sorted_set.
  assert (omap id x = []) as ->; [| reflexivity].
  destruct (omap id x) as [|v l] eqn:Hl; [reflexivity |].
  destruct (Hx v). apply omap_id_elem_of. rewrite Hl. by left.
Qed.

(** Rows in another order, with a repetition and a missing value. *)
Lemma X10_join_sorted_set_depends_on_the_set_witness :
  Merge.join_sorted_set [Some "SANTA ELENA"; None; Some "MEDELLIN"; Some "SANTA ELENA"] =
  Merge.join_sorted_set [Some "MEDELLIN"; Some "SANTA ELENA"].
Proof.
  apply (X10_join_sorted_set_depends_on_the_set
           [Some "SANTA ELENA"; None; Some "MEDELLIN"; Some "SANTA ELENA"]
           [Some "MEDELLIN"; Some "SANTA ELENA"]).
  intros v. rewrite !elem_of_cons, !elem_of_nil. split; intros H;
    repeat match goal with H : _ \/ _ |- _ => destruct H end;
    try discriminate; try done; tauto.
Defined.

Lemma any_skipna_ext (ms1 ms2 : list (option bool)) :
  (forall m, m ∈ ms1 <-> m ∈ ms2) -> Merge.any_skipna ms1 = Merge.any_skipna ms2.
Proof.
  intros H. apply eq_true_iff_eq. rewrite !any_skipna_true. apply H.
Qed.

Lemma map_ext_elem_of {A B} (f : A -> B) (l1 l2 : list A) :
  (forall x, x ∈ l1 <-> x ∈ l2) -> forall y, y ∈ map f l1 <-> y ∈ map f l2.
Proof.
  intros H y. rewrite !elem_of_map. split; intros (x & -> & Hx); exists x;
    (split; [reflexivity | by apply H]).
Qed.

Lemma groupby_keys_ext {A} (key : A -> Merge.JoinKey) (l1 l2 : list A) :
  (forall r, r ∈ l1 <-> r ∈ l2) ->
  map fst (Merge.groupby key l1) = map fst (Merge.groupby key l2).
Proof.
  intros H. apply (Sorted_unique Merge.key_le); try apply groupby_keys_sorted.
  apply NoDup_Permutation; try apply groupby_keys_NoDup.
  intros k. rewrite !groupby_key_elem_of.
  split; intros (Hk & r & Hr & Hkey); (split; [done |]); exists r; (split; [| done]);
    by apply H.
Qed.

(** X11: the duplicates taken out of the coverage table do not show in its
    grouping, but for the mean: with or without them the grouping has the
    same keys in the same order, and a key has the same text of populated
    centres, the same six markers and the same [tiene_4g_o_mas]. *)
Theorem X11_duplicates_do_not_show_in_the_grouping
    (mean_count : list Z -> Accesos.pyfloat) (df : list Cobertura.row) :
  let with_duplicates := Merge.cobertura_grouped mean_count df in
  let without := Merge.cobertura_grouped mean_count (Frame.drop_duplicates df) in
  map fst with_duplicates = map fst without /\
  (forall k a b, (k, a) ∈ with_duplicates -> (k, b) ∈ without ->
     Merge.CoberturaGrouped.centro_poblado a = Merge.CoberturaGrouped.centro_poblado b /\
     Merge.CoberturaGrouped.cobertura_2g a = Merge.CoberturaGrouped.cobertura_2g b /\
     Merge.CoberturaGrouped.cobertura_3g a = Merge.CoberturaGrouped.cobertura_3g b /\
     Merge.CoberturaGrouped.cobertura_hspa a = Merge.CoberturaGrouped.cobertura_hspa b /\
     Merge.CoberturaGrouped.cobertura_4g a = Merge.CoberturaGrouped.cobertura_4g b /\
     Merge.CoberturaGrouped.cobertura_lte a = Merge.CoberturaGrouped.cobertura_lte b /\
     Merge.CoberturaGrouped.cobertura_5g a = Merge.CoberturaGrouped.cobertura_5g b /\
     Merge.CoberturaGrouped.tiene_4g_o_mas a = Merge.CoberturaGrouped.tiene_4g_o_mas b).
Proof.
  intros g1 g2. subst g1 g2. split.
  - rewrite !cobertura_grouped_keys. apply groupby_keys_ext.
    intros r. by rewrite drop_duplicates_elem_of.
  - intros k a b Ha Hb.
    apply cobertura_grouped_elem_of in Ha as [_ ->].
    apply cobertura_grouped_elem_of in Hb as [_ ->].
    assert (Hrows : forall r, r ∈ Merge.rows_of Merge.cobertura_key k df <->
                      r ∈ Merge.rows_of Merge.cobertura_key k (Frame.drop_duplicates df)).
    { intros r. by rewrite !rows_of_elem_of, drop_duplicates_elem_of. }
    cbn [Merge.agg_cobertura Merge.CoberturaGrouped.centro_poblado
      Merge.CoberturaGrouped.cobertura_2g Merge.CoberturaGrouped.cobertura_3g
      Merge.CoberturaGrouped.cobertura_hspa Merge.CoberturaGrouped.cobertura_4g
      Merge.CoberturaGrouped.cobertura_lte Merge.CoberturaGrouped.cobertura_5g
      Merge.CoberturaGrouped.tiene_4g_o_mas].
    split; [apply join_sorted_set_ext; intros v; by apply map_ext_elem_of |].
    repeat split; apply any_skipna_ext, map_ext_elem_of, Hrows.
Qed.

(** ** Case and blanks *)

Lemma upper_char_idem (a : ascii) : Py.upper_char (Py.upper_char a) = Py.upper_char a.
Proof. destruct a as [[] [] [] [] [] [] [] []]; reflexivity. Qed.

Lemma upper_lower_char (a : ascii) : Py.upper_char (Py.lower_char a) = Py.upper_char a.
Proof. destruct a as [[] [] [] [] [] [] [] []]; reflexivity. Qed.

Lemma is_space_upper_char (a : ascii) : Py.is_space (Py.upper_char a) = Py.is_space a.
Proof. destruct a as [[] [] [] [] [] [] [] []]; reflexivity. Qed.

Lemma is_space_lower_char (a : ascii) : Py.is_space (Py.lower_char a) = Py.is_space a.
Proof. destruct a as [[] [] [] [] [] [] [] []]; reflexivity. Qed.

Lemma map_chars_map_chars (f g : ascii -> ascii) (s : string) :
  Py.map_chars f (Py.map_chars g s) = Py.map_chars (fun a => f (g a)) s.
Proof. induction s as [|a s IH]; simpl; [reflexivity | by rewrite IH]. Qed.

Lemma map_chars_ext (f g : ascii -> ascii) (s : string) :
  (forall a, f a = g a) -> Py.map_chars f s = Py.map_chars g s.
Proof. intros H. induction s as [|a s IH]; simpl; [reflexivity | by rewrite H, IH]. Qed.

Lemma upper_idem (s : string) : Py.upper (Py.upper s) = Py.upper s.
Proof.
  unfold Py.upper. rewrite map_chars_map_chars. apply map_chars_ext, upper_char_idem.
Qed.

Lemma upper_lower (s : string) : Py.upper (Py.lower s) = Py.upper s.
Proof.
  unfold Py.upper, Py.lower. rewrite map_chars_map_chars.
  apply map_chars_ext, upper_lower_char.
Qed.

(** X12: the classifier does not look at the case of its argument: two
    texts with the same capitals get the same label, and so a text, the text
    in capitals and the text in small letters do. *)
Theorem X12_classifier_ignores_case (s : string) :
  (forall s', Py.upper s = Py.upper s' ->
     _clasificar_tecnologia (Some s) = _clasificar_tecnologia (Some s')) /\
  _clasificar_tecnologia (Some (Py.upper s)) = _clasificar_tecnologia (Some s) /\
  _clasificar_tecnologia (Some (Py.lower s)) = _clasificar_tecnologia (Some s).
Proof.
  assert (H : forall s', Py.upper s = Py.upper s' ->
            _clasificar_tecnologia (Some s) = _clasificar_tecnologia (Some s')).
  { intros s' Heq. rewrite !clasificar_cases. cbv zeta. by rewrite Heq. }
  split; [exact H |]. split; symmetry; apply H.
  - by rewrite upper_idem.
  - by rewrite upper_lower.
Qed.

Section Strip.
Variable p : ascii -> bool.

Lemma lstrip_by_all (s : string) : Aux.all_chars p s = true -> Py.lstrip_by p s = "".
Proof.
  induction s as [|a s IH]; simpl; [reflexivity |].
  intros [Ha Hs]%andb_true_iff. rewrite Ha. by apply IH.
Qed.

Lemma rstrip_by_all (s : string) : Aux.all_chars p s = true -> Py.rstrip_by p s = "".
Proof.
  induction s as [|a s IH]; simpl; [reflexivity |].
  intros [Ha Hs]%andb_true_iff. by rewrite (IH Hs), Ha.
Qed.

Lemma lstrip_by_app_l (pre s : string) :
  Aux.all_chars p pre = true -> Py.lstrip_by p (pre +:+ s) = Py.lstrip_by p s.
Proof.
  induction pre as [|a pre IH]; [reflexivity |].
  change (String a pre +:+ s) with (String a (pre +:+ s)). simpl.
  intros [Ha Hs]%andb_true_iff. rewrite Ha. by apply IH.
Qed.

Lemma rstrip_by_app_r (s post : string) :
  Aux.all_chars p post = true -> Py.rstrip_by p (s +:+ post) = Py.rstrip_by p s.
Proof.
  intros Hpost. induction s as [|a s IH].
  - change ("" +:+ post) with post. by apply rstrip_by_all.
  - change (String a s +:+ post) with (String a (s +:+ post)). simpl. by rewrite IH.
Qed.

(** Trailing characters of the kind that is stripped do not change what
    is left after the leading ones are gone. *)
Lemma rstrip_lstrip_app_r (s post : string) :
  Aux.all_chars p post = true ->
  Py.rstrip_by p (Py.lstrip_by p (s +:+ post)) = Py.rstrip_by p (Py.lstrip_by p s).
Proof.
  intros Hpost. induction s as [|a s IH].
  - change ("" +:+ post) with post. by rewrite (lstrip_by_all post Hpost).
  - change (String a s +:+ post) with (String a (s +:+ post)).
    cbn [Py.lstrip_by]. destruct (p a); [exact IH |].
    change (String a (s +:+ post)) with (String a s +:+ post).
    by apply rstrip_by_app_r.
Qed.

Lemma strip_by_pad (pre s post : string) :
  Aux.all_chars p pre = true -> Aux.all_chars p post = true ->
  Py.strip_by p (pre +:+ s +:+ post) = Py.strip_by p s.
Proof.
  intros Hpre Hpost. unfold Py.strip_by.
  rewrite (lstrip_by_app_l pre _ Hpre). by apply rstrip_lstrip_app_r.
Qed.
End Strip.

Lemma lstrip_map_chars (f : ascii -> ascii) (s : string) :
  (forall a, Py.is_space (f a) = Py.is_space a) ->
  Py.lstrip_by Py.is_space (Py.map_chars f s) = Py.map_chars f (Py.lstrip_by Py.is_space s).
Proof.
  intros Hf. induction s as [|a s IH]; simpl; [reflexivity |].
  rewrite Hf. by destruct (Py.is_space a).
Qed.

Lemma rstrip_map_chars (f : ascii -> ascii) (s : string) :
  (forall a, Py.is_space (f a) = Py.is_space a) ->
  Py.rstrip_by Py.is_space (Py.map_chars f s) = Py.map_chars f (Py.rstrip_by Py.is_space s).
Proof.
  intros Hf. induction s as [|a s IH]; simpl; [reflexivity |].
  rewrite IH, Hf. destruct (Py.rstrip_by Py.is_space s); simpl; [| reflexivity].
  by destruct (Py.is_space a).
Qed.

Lemma strip_map_chars (f : ascii -> ascii) (s : string) :
  (forall a, Py.is_space (f a) = Py.is_space a) ->
  Py.strip (Py.map_chars f s) = Py.map_chars f (Py.strip s).
Proof.
  intros Hf. unfold Py.strip, Py.strip_by.
  by rewrite lstrip_map_chars, rstrip_map_chars.
Qed.

(** X13: the coercion of a technology marker looks neither at blanks
    around the text of the cell nor at its case: a text with blanks added
    before and after it, the text in capitals and the text in small letters
    give the marker that the text gives. *)
Theorem X13_marker_ignores_blanks_and_case (pre s post : string) :
  Aux.all_chars Py.is_space pre = true ->
  Aux.all_chars Py.is_space post = true ->
  Cobertura.coerce_marker (Some (pre +:+ s +:+ post)) = Cobertura.coerce_marker (Some s) /\
  Cobertura.coerce_marker (Some (Py.upper s)) = Cobertura.coerce_marker (Some s) /\
  Cobertura.coerce_marker (Some (Py.lower s)) = Cobertura.coerce_marker (Some s).
Proof.
  intros Hpre Hpost. unfold Cobertura.coerce_marker. cbn [Frame.astype_str].
  split; [| split].
  - unfold Py.strip. by rewrite (strip_by_pad _ pre s post Hpre Hpost).
  - unfold Py.upper at 2. rewrite strip_map_chars by apply is_space_upper_char.
    fold (Py.upper (Py.strip s)). by rewrite upper_idem.
  - unfold Py.lower. rewrite strip_map_chars by apply is_space_lower_char.
    fold (Py.lower (Py.strip s)). by rewrite upper_lower.
Qed.

(** A small s between two spaces and a line feed. *)
Lemma X13_marker_ignores_blanks_and_case_witness :
  Cobertura.coerce_marker (Some ("  " +:+ "s" +:+ String (ascii_of_N 10) "")) =
  Cobertura.coerce_marker (Some "s").
Proof.
  apply (X13_marker_ignores_blanks_and_case "  " "s" (String (ascii_of_N 10) ""));
    reflexivity.
Defined.

(** ** The access normalizer, once more *)

Lemma clasificar_in_labels (tec : option string) : _clasificar_tecnologia tec ∈ labels.
Proof.
  destruct tec as [s|]; [| by_evaluation].
  rewrite clasificar_cases. decide_checks (Py.upper s); by_evaluation.
Qed.

Lemma map_result_raise_inv {A B} (f : A -> result B) (xs : list A) (e : exn) :
  map_result f xs = Raise e -> exists x, x ∈ xs /\ f x = Raise e.
Proof.
  induction xs as [|x xs IH]; simpl; [discriminate |].
  destruct (f x) as [y|e1] eqn:Hfx; simpl.
  - destruct (map_result f xs) as [ys|e2]; simpl; [discriminate |].
    intros [= <-]. destruct (IH eq_refl) as (x' & Hx' & Hf).
    exists x'. split; [by right | done].
  - intros [= <-]. exists x. split; [by left | done].
Qed.

Lemma coerce_numeric_raise_inv (col : Accesos.series) (e : exn) :
  Accesos.coerce_numeric col = Raise e ->
  exists cells c, col = Accesos.ObjectCol cells /\ c ∈ cells /\
    Accesos.py_float (Accesos.comma_to_period c) = Raise ValueError.
Proof.
  destruct col as [cells | cells | cells]; simpl; [| discriminate | discriminate].
  intros H. apply map_result_raise_inv in H as (x & Hx & Hf).
  apply elem_of_map in Hx as (c & -> & Hc).
  exists cells, c. split; [done |]. split; [done |].
  by rewrite <- (py_float_raises_value_error _ _ Hf).
Qed.

Lemma coerce_numeric_length (col : Accesos.series) (out : list Accesos.pyfloat) :
  Accesos.coerce_numeric col = Ok out -> length out = Aux.series_length col.
Proof.
  destruct col as [cells | cells | cells]; simpl.
  - intros H. apply map_result_ok in H. apply Forall2_length in H.
    by rewrite length_map in H.
  - by intros [= <-].
  - intros [= <-]. by rewrite length_map.
Qed.

Section MakeRows.
Variable fadd : Accesos.pyfloat -> Accesos.pyfloat -> Accesos.pyfloat.

Lemma make_rows_spec (rs : list Accesos.Raw.row) (vb vs na : list Accesos.pyfloat) :
  length vb = length rs -> length vs = length rs -> length na = length rs ->
  let out := Accesos.make_rows fadd rs vb vs na in
  map Merge.accesos_key out = map Aux.raw_key rs /\
  map Accesos.tecnologia out = map Accesos.Raw.tecnologia rs /\
  map Accesos.velocidad_bajada out = vb /\
  map Accesos.velocidad_subida out = vs /\
  map Accesos.no_de_accesos out = na.
Proof.
  revert vb vs na. induction rs as [|r rs IH]; intros vb vs na Hb Hs Ha.
  - destruct vb, vs, na; try discriminate. by repeat split.
  - destruct vb as [|b vb], vs as [|s vs], na as [|a na]; try discriminate.
    injection Hb as Hb. injection Hs as Hs. injection Ha as Ha.
    destruct (IH vb vs na Hb Hs Ha) as (H1 & H2 & H3 & H4 & H5).
    cbn [Accesos.make_rows map]. rewrite H1, H2, H3, H4, H5. by repeat split.
Qed.

Lemma make_rows_derived (rs : list Accesos.Raw.row) (vb vs na : list Accesos.pyfloat)
    (r : Accesos.row) :
  r ∈ Accesos.make_rows fadd rs vb vs na ->
  Accesos.tipo_tecnologia r = _clasificar_tecnologia (Accesos.tecnologia r) /\
  Accesos.velocidad_total r =
    fadd (Accesos.velocidad_bajada r) (Accesos.velocidad_subida r).
Proof.
  revert vb vs na. induction rs as [|r0 rs IH]; intros vb vs na.
  - simpl. by intros ?%elem_of_nil.
  - destruct vb as [|b vb], vs as [|s vs], na as [|a na];
      try (simpl; by intros ?%elem_of_nil).
    cbn [Accesos.make_rows]. intros [-> | Hin]%elem_of_cons; [by split |].
    by apply (IH vb vs na).
Qed.
End MakeRows.

(** X14: on a table whose numeric columns have a cell for every row, the
    access normalizer, when it succeeds, keeps every row in its place (it
    removes no duplicate): the key cells and the technology of the rows are
    those of the table, the three numeric columns are the coerced columns,
    and in every row the class is the classification of the technology and
    the total speed the sum of the two speeds. *)
Theorem X14_transform_accesos_keeps_the_rows
    (fadd : Accesos.pyfloat -> Accesos.pyfloat -> Accesos.pyfloat)
    (t : Accesos.Raw.table) (out : list Accesos.row) :
  Aux.well_formed t ->
  Accesos.transform_accesos fadd t = Ok out ->
  length out = length (Accesos.Raw.rows t) /\
  map Merge.accesos_key out = map Aux.raw_key (Accesos.Raw.rows t) /\
  map Accesos.tecnologia out = map Accesos.Raw.tecnologia (Accesos.Raw.rows t) /\
  Accesos.coerce_numeric (Accesos.Raw.velocidad_bajada t) = Ok (map Accesos.velocidad_bajada out) /\
  Accesos.coerce_numeric (Accesos.Raw.velocidad_subida t) = Ok (map Accesos.velocidad_subida out) /\
  Accesos.coerce_numeric (Accesos.Raw.no_de_accesos t) = Ok (map Accesos.no_de_accesos out) /\
  (forall r, r ∈ out ->
     Accesos.tipo_tecnologia r = _clasificar_tecnologia (Accesos.tecnologia r) /\
     Accesos.tipo_tecnologia r ∈ labels /\
     Accesos.velocidad_total r =
       fadd (Accesos.velocidad_bajada r) (Accesos.velocidad_subida r)).
Proof.
  intros (Wb & Ws & Wa). unfold Accesos.transform_accesos.
  destruct (Accesos.coerce_numeric (Accesos.Raw.velocidad_bajada t)) as [vb|] eqn:Hb;
    [| discriminate].
  destruct (Accesos.coerce_numeric (Accesos.Raw.velocidad_subida t)) as [vs|] eqn:Hs;
    [| discriminate].
  destruct (Accesos.coerce_numeric (Accesos.Raw.no_de_accesos t)) as [na|] eqn:Ha;
    [| discriminate].
  cbn [bind]. intros [= <-].
  apply coerce_numeric_length in Hb, Hs, Ha. rewrite Wb in Hb. rewrite Ws in Hs.
  rewrite Wa in Ha.
  destruct (make_rows_spec fadd _ _ _ _ Hb Hs Ha) as (H1 & H2 & H3 & H4 & H5).
  split; [by rewrite <- (length_map Merge.accesos_key), H1, length_map |].
  rewrite H3, H4, H5.
  split; [done |]. split; [done |]. split; [done |]. split; [done |]. split; [done |].
  intros r Hr. destruct (make_rows_derived fadd _ _ _ _ r Hr) as [Ht Hv].
  split; [done |]. split; [| done]. rewrite Ht. apply clasificar_in_labels.
Qed.

(** The sample table keeps its four rows. *)
Lemma X14_transform_accesos_keeps_the_rows_witness :
  length Sample.df_accesos = 4%nat.
Proof.
  apply (X14_transform_accesos_keeps_the_rows Exact.add Sample.accesos_raw Sample.df_accesos).
  - by repeat split.
  - by vm_compute.
Defined.

(** X15: the coercion of one numeric column (lines 96-98) raises exactly
    when the column is a column of texts with a cell that, commas replaced,
    is not the text of a number, and the exception is then [ValueError]; a
    column that [read_csv] has already typed as numbers is never refused and
    keeps its values. *)
Theorem X15_numeric_coercion_failure (col : Accesos.series) :
  ((exists e, Accesos.coerce_numeric col = Raise e) <->
   exists cells c,
     col = Accesos.ObjectCol cells /\ c ∈ cells /\
     Accesos.py_float (Accesos.comma_to_period c) = Raise ValueError) /\
  (forall e, Accesos.coerce_numeric col = Raise e -> e = ValueError) /\
  (forall cells, col = Accesos.Float64Col cells -> Accesos.coerce_numeric col = Ok cells) /\
  (forall cells, col = Accesos.Int64Col cells ->
     exists out, Accesos.coerce_numeric col = Ok out /\ length out = length cells).
Proof.
  split; [| split; [apply coerce_numeric_raises_value_error | split]].
  - split.
    + intros [e He]. by apply (coerce_numeric_raise_inv col e).
    + intros (cells & c & -> & Hin & Hf). exists ValueError.
      by apply (coerce_numeric_object_raises cells c).
  - by intros cells ->.
  - intros cells ->. eexists. split; [reflexivity |]. by rewrite length_map.
Qed.

(** X16: in the grouping of a normalized access table the text of the
    classes of a group is made of labels of the classifier: it joins, with a
    comma and a space, the different classes of the rows of the group in
    ascending order, each once, so at most six of them. *)
Theorem X16_grouped_classes
    (fadd : Accesos.pyfloat -> Accesos.pyfloat -> Accesos.pyfloat)
    (mean sum : list Accesos.pyfloat -> Accesos.pyfloat)
    (t : Accesos.Raw.table) (df : list Accesos.row)
    (k : Merge.JoinKey) (g : Merge.AccesosGrouped.row) :
  Accesos.transform_accesos fadd t = Ok df ->
  (k, g) ∈ Merge.accesos_grouped mean sum df ->
  exists l : list string,
    Merge.AccesosGrouped.tipo_tecnologia g = Py.join ", " l /\
    Sorted String.le l /\ NoDup l /\
    (forall x, x ∈ l <->
       exists r, r ∈ df /\ Merge.accesos_key r = k /\ Accesos.tipo_tecnologia r = x) /\
    (forall x, x ∈ l -> x ∈ labels) /\
    (length l <= 6)%nat.
Proof.
  intros Ht Hin. apply accesos_grouped_elem_of_iff in Hin as (_ & _ & ->).
  set (rows := Merge.rows_of Merge.accesos_key k df).
  set (l := merge_sort String.le
              (Frame.drop_duplicates
                 (omap id (map (fun r => Some (Accesos.tipo_tecnologia r)) rows)))).
  assert (Hmem : forall x, x ∈ l <->
            exists r, r ∈ df /\ Merge.accesos_key r = k /\ Accesos.tipo_tecnologia r = x).
  { intros x. subst l. rewrite merge_sort_Permutation, drop_duplicates_elem_of.
    rewrite omap_id_elem_of, elem_of_map. subst rows. split.
    - intros (r & [= ->] & Hr). apply rows_of_elem_of in Hr as [Hr Hk]. eauto.
    - intros (r & Hr & Hk & <-). exists r. split; [done |]. by apply rows_of_elem_of. }
  assert (Hnd : NoDup l).
  { subst l. rewrite merge_sort_Permutation. apply drop_duplicates_NoDup. }
  assert (Hlab : forall x, x ∈ l -> x ∈ labels).
  { intros x (r & Hr & _ & <-)%Hmem.
    unfold Accesos.transform_accesos in Ht.
    destruct (Accesos.coerce_numeric (Accesos.Raw.velocidad_bajada t)); [| discriminate].
    destruct (Accesos.coerce_numeric (Accesos.Raw.velocidad_subida t)); [| discriminate].
    destruct (Accesos.coerce_numeric (Accesos.Raw.no_de_accesos t)); [| discriminate].
    cbn [bind] in Ht. injection Ht as <-.
    destruct (make_rows_derived fadd _ _ _ _ r Hr) as [-> _].
    apply clasificar_in_labels. }
  exists l. split; [reflexivity |]. split; [apply (Sorted_merge_sort _) |].
  split; [done |]. split; [done |]. split; [done |].
  change 6%nat with (length labels).
  by apply submseteq_length, NoDup_submseteq.
Qed.

(** The group of Medellin in the sample has a row of cable and a row of
    fibre. *)
Lemma X16_grouped_classes_witness :
  exists l : list string, "CABLE, FIBRA" = Py.join ", " l /\ (length l <= 6)%nat.
Proof.
  assert (Hin : (Sample.k_medellin,
                 Merge.agg_accesos Exact.mean Exact.sum
                   (Merge.rows_of Merge.accesos_key Sample.k_medellin Sample.df_accesos))
                ∈ Merge.accesos_grouped Exact.mean Exact.sum Sample.df_accesos)
    by by_evaluation.
  assert (Ht : Accesos.transform_accesos Exact.add Sample.accesos_raw = Ok Sample.df_accesos)
    by (by vm_compute).
  destruct (X16_grouped_classes Exact.add Exact.mean Exact.sum _ _ _ _ Ht Hin)
    as (l & Hl & _ & _ & _ & _ & Hlen).
  exists l. split; [| exact Hlen]. rewrite <- Hl. by vm_compute.
Defined.

(** X17: in a column of texts a comma and a period are one decimal mark: a
    text and the text with its periods written as commas are coerced alike,
    and the replacement done twice is the replacement done once. *)
Theorem X17_comma_and_period_alike (cells : list (option string)) :
  Accesos.coerce_numeric
    (Accesos.ObjectCol (map (option_map (Py.replace "." ",")) cells)) =
  Accesos.coerce_numeric (Accesos.ObjectCol cells) /\
  (forall c, Accesos.comma_to_period (Some (Accesos.comma_to_period c)) =
             Accesos.comma_to_period c).
Proof.
  assert (H1 : forall s, Py.replace "," "." (Py.replace "." "," s) = Py.replace "," "." s).
  { intros s. unfold Py.replace. rewrite map_chars_map_chars. apply map_chars_ext.
    intros a. destruct (Ascii.eqb a ".") eqn:Ha; [| reflexivity].
    apply Ascii.eqb_eq in Ha. by subst a. }
  assert (H2 : forall s, Py.replace "," "." (Py.replace "," "." s) = Py.replace "," "." s).
  { intros s. unfold Py.replace. rewrite map_chars_map_chars. apply map_chars_ext.
    intros a. destruct (Ascii.eqb a ",") eqn:Ha; [reflexivity |]. by rewrite Ha. }
  split.
  - cbn [Accesos.coerce_numeric]. f_equal. rewrite map_map. apply map_ext.
    intros [s|]; [| reflexivity]. unfold Accesos.comma_to_period. cbn. apply H1.
  - intros c. unfold Accesos.comma_to_period. cbn [Frame.astype_str]. apply H2.
Qed.

(** ** The merge of the two normalized tables *)

Lemma transform_accesos_keys
    (fadd : Accesos.pyfloat -> Accesos.pyfloat -> Accesos.pyfloat)
    (t : Accesos.Raw.table) (out : list Accesos.row) :
  Aux.well_formed t ->
  Accesos.transform_accesos fadd t = Ok out ->
  map Merge.accesos_key out = map Aux.raw_key (Accesos.Raw.rows t).
Proof.
  intros (Wb & Ws & Wa). unfold Accesos.transform_accesos.
  destruct (Accesos.coerce_numeric (Accesos.Raw.velocidad_bajada t)) as [vb|] eqn:Hb;
    [| discriminate].
  destruct (Accesos.coerce_numeric (Accesos.Raw.velocidad_subida t)) as [vs|] eqn:Hs;
    [| discriminate].
  destruct (Accesos.coerce_numeric (Accesos.Raw.no_de_accesos t)) as [na|] eqn:Ha;
    [| discriminate].
  cbn [bind]. intros [= <-].
  apply coerce_numeric_length in Hb, Hs, Ha. rewrite Wb in Hb. rewrite Ws in Hs.
  rewrite Wa in Ha.
  by destruct (make_rows_spec fadd _ _ _ _ Hb Hs Ha) as (H1 & _).
Qed.

(** X18: when the access normalizer succeeds, the merge of the two
    normalized tables, as [run_pipeline] makes it, has a row for exactly the
    keys without a missing cell that a row of the coverage table and a row of
    the access table both have. *)
Theorem X18_merged_keys_from_the_tables
    (fadd : Accesos.pyfloat -> Accesos.pyfloat -> Accesos.pyfloat)
    (mean_count : list Z -> Accesos.pyfloat)
    (mean sum : list Accesos.pyfloat -> Accesos.pyfloat)
    (cobertura_movil : list Cobertura.Raw.row) (accesos : Accesos.Raw.table)
    (accesos_transformed : list Accesos.row) (k : Merge.JoinKey) :
  Aux.well_formed accesos ->
  Accesos.transform_accesos fadd accesos = Ok accesos_transformed ->
  k ∈ map Merge.merged_key
        (Merge.merge_datasets mean_count mean sum
           (Cobertura.transform_cobertura_movil cobertura_movil) accesos_transformed) <->
  Merge.key_notnull k = true /\
  (exists r, r ∈ cobertura_movil /\ Aux.cobertura_raw_key r = k) /\
  (exists r, r ∈ Accesos.Raw.rows accesos /\ Aux.raw_key r = k).
Proof.
  intros Hwf Ht. rewrite merge_datasets_key_elem_of.
  rewrite cobertura_grouped_keys, accesos_grouped_keys, !groupby_key_elem_of.
  assert (Hc : (exists r, r ∈ Cobertura.transform_cobertura_movil cobertura_movil /\
                  Merge.cobertura_key r = k) <->
               (exists r, r ∈ cobertura_movil /\ Aux.cobertura_raw_key r = k)).
  { split.
    - intros (r & Hr & Hk). apply transform_cobertura_movil_row in Hr as (raw & -> & Hraw).
      by exists raw.
    - intros (raw & Hraw & Hk). exists (Cobertura.transform_row raw).
      split; [| done]. apply transform_cobertura_movil_row. by exists raw. }
  assert (Ha : (exists r, r ∈ accesos_transformed /\ Merge.accesos_key r = k) <->
               (exists r, r ∈ Accesos.Raw.rows accesos /\ Aux.raw_key r = k)).
  { pose proof (transform_accesos_keys fadd accesos accesos_transformed Hwf Ht) as Hkeys.
    assert (Hiff : k ∈ map Merge.accesos_key accesos_transformed <->
                   k ∈ map Aux.raw_key (Accesos.Raw.rows accesos)) by by rewrite Hkeys.
    rewrite !elem_of_map in Hiff.
    split; intros (r & Hr & Hk).
    - destruct (proj1 Hiff) as (r' & -> & Hr'); [by exists r |]. by exists r'.
    - destruct (proj2 Hiff) as (r' & -> & Hr'); [by exists r |]. by exists r'. }
  rewrite Hc, Ha. tauto.
Qed.

(** The sample tables: the key of Bogota, which no coverage row has, is not
    merged. *)
Lemma X18_merged_keys_from_the_tables_witness :
  Sample.k_bogota ∈ map Merge.merged_key Sample.merged <->
  Merge.key_notnull Sample.k_bogota = true /\
  (exists r, r ∈ Sample.cobertura_raw /\ Aux.cobertura_raw_key r = Sample.k_bogota) /\
  (exists r, r ∈ Accesos.Raw.rows Sample.accesos_raw /\ Aux.raw_key r = Sample.k_bogota).
Proof.
  apply (X18_merged_keys_from_the_tables Exact.add Exact.mean_count Exact.mean Exact.sum
           Sample.cobertura_raw Sample.accesos_raw Sample.df_accesos Sample.k_bogota).
  - by repeat split.
  - by vm_compute.
Defined.

(** ** The order of the rows *)

Lemma rows_of_ext {A} (key : A -> Merge.JoinKey) (k : Merge.JoinKey) (l1 l2 : list A) :
  (forall r, r ∈ l1 <-> r ∈ l2) ->
  forall r, r ∈ Merge.rows_of key k l1 <-> r ∈ Merge.rows_of key k l2.
Proof. intros H r. rewrite !rows_of_elem_of. by rewrite H. Qed.

(** X19: the order of the rows of the two normalized tables does not show
    in the merged table, but for the sums and means: with the rows of either
    table in another order the merged table has the same keys in the same
    order, and a key has the same texts (populated centres, technologies,
    classes), the same six markers and the same [tiene_4g_o_mas]. *)
Theorem X19_row_order_does_not_show
    (mean_count : list Z -> Accesos.pyfloat)
    (mean sum : list Accesos.pyfloat -> Accesos.pyfloat)
    (cov cov' : list Cobertura.row) (acc acc' : list Accesos.row) :
  cov ≡ₚ cov' -> acc ≡ₚ acc' ->
  let out := Merge.merge_datasets mean_count mean sum cov acc in
  let out' := Merge.merge_datasets mean_count mean sum cov' acc' in
  map Merge.merged_key out = map Merge.merged_key out' /\
  (forall k b c b' c', (k, b, c) ∈ out -> (k, b', c') ∈ out' ->
     Merge.CoberturaGrouped.centro_poblado b = Merge.CoberturaGrouped.centro_poblado b' /\
     Merge.CoberturaGrouped.cobertura_2g b = Merge.CoberturaGrouped.cobertura_2g b' /\
     Merge.CoberturaGrouped.cobertura_3g b = Merge.CoberturaGrouped.cobertura_3g b' /\
     Merge.CoberturaGrouped.cobertura_hspa b = Merge.CoberturaGrouped.cobertura_hspa b' /\
     Merge.CoberturaGrouped.cobertura_4g b = Merge.CoberturaGrouped.cobertura_4g b' /\
     Merge.CoberturaGrouped.cobertura_lte b = Merge.CoberturaGrouped.cobertura_lte b' /\
     Merge.CoberturaGrouped.cobertura_5g b = Merge.CoberturaGrouped.cobertura_5g b' /\
     Merge.CoberturaGrouped.tiene_4g_o_mas b = Merge.CoberturaGrouped.tiene_4g_o_mas b' /\
     Merge.AccesosGrouped.tecnologia c = Merge.AccesosGrouped.tecnologia c' /\
     Merge.AccesosGrouped.tipo_tecnologia c = Merge.AccesosGrouped.tipo_tecnologia c').
Proof.
  intros Hcov Hacc out out'. subst out out'.
  assert (Hc : forall r, r ∈ cov <-> r ∈ cov') by (intros r; by rewrite Hcov).
  assert (Ha : forall r, r ∈ acc <-> r ∈ acc') by (intros r; by rewrite Hacc).
  split.
  - rewrite !merge_datasets_keys, !cobertura_grouped_keys, !accesos_grouped_keys.
    by rewrite (groupby_keys_ext Merge.cobertura_key cov cov' Hc),
      (groupby_keys_ext Merge.accesos_key acc acc' Ha).
  - intros k b c b' c' Hin Hin'. unfold Merge.merge_datasets in Hin, Hin'.
    apply merge_inner_elem_of in Hin as [Hb Hc1], Hin' as [Hb' Hc1'].
    apply cobertura_grouped_elem_of in Hb as [_ ->], Hb' as [_ ->].
    apply accesos_grouped_elem_of_iff in Hc1 as (_ & _ & ->), Hc1' as (_ & _ & ->).
    pose proof (rows_of_ext Merge.cobertura_key k cov cov' Hc) as Hrc.
    pose proof (rows_of_ext Merge.accesos_key k acc acc' Ha) as Hra.
    cbn [Merge.agg_cobertura Merge.agg_accesos Merge.CoberturaGrouped.centro_poblado
      Merge.CoberturaGrouped.cobertura_2g Merge.CoberturaGrouped.cobertura_3g
      Merge.CoberturaGrouped.cobertura_hspa Merge.CoberturaGrouped.cobertura_4g
      Merge.CoberturaGrouped.cobertura_lte Merge.CoberturaGrouped.cobertura_5g
      Merge.CoberturaGrouped.tiene_4g_o_mas Merge.AccesosGrouped.tecnologia
      Merge.AccesosGrouped.tipo_tecnologia].
    split; [apply join_sorted_set_ext; intros v; by apply map_ext_elem_of |].
    do 7 (split; [apply any_skipna_ext, map_ext_elem_of, Hrc |]).
    split; apply join_sorted_set_ext; intros v; by apply map_ext_elem_of.
Qed.

(** The sample tables, with the rows of each in the opposite order. *)
Lemma X19_row_order_does_not_show_witness :
  map Merge.merged_key Sample.merged =
  map Merge.merged_key
    (Merge.merge_datasets Exact.mean_count Exact.mean Exact.sum
       (reverse Sample.df_cobertura) (reverse Sample.df_accesos)).
Proof.
  apply (X19_row_order_does_not_show Exact.mean_count Exact.mean Exact.sum
           Sample.df_cobertura (reverse Sample.df_cobertura)
           Sample.df_accesos (reverse Sample.df_accesos)).
  - symmetry. apply reverse_Permutation.
  - symmetry. apply reverse_Permutation.
Defined.
